(** * Device emulator: event stores, binary query protocol, webhook delivery,
      control-plane dispatcher and task runner

    A shallow embedding of [emulator/devices/base.py],
    [emulator/devices/sensors.py], [emulator/event_socket.py] and the
    [runner] of [listen.py].

    Conventions of the embedding.
    - A Python [int] is a [Z]; [bytes] is a [list byte]; a [str] is a Rocq
      [string], read as the UTF-8 bytes of the text.
    - A Python exception is a value of [exn]; a call that may raise returns
      [exn + A].
    - Each SQLite table is the list of its rows in rowid order.  The state
      kept is the view of the device's single connection, which is where
      every statement of the program runs.
    - Network peers are oracles: the bytes a client sends arrive as a list of
      [chunk]s, the webhook destination answers the k-th POST of a call
      with [net url k].
    - Greenlet interleaving inside one device is not modelled: operations of
      a device run one after the other, as the lock [lock_db] forces. *)

From Stdlib Require Import ZArith.
From Stdlib.Strings Require Import Byte Ascii.
From stdpp Require Import gmap strings list pretty sorting.

Local Open Scope Z_scope.

(** ** Exceptions *)

Inductive exn_class :=
| SocketTimeout        (* socket.timeout *)
| ProtocolError        (* CustomEventProtoDevice.ProtocolError *)
| EventError           (* Device.EventError *)
| ValueError           (* also its subclass json.JSONDecodeError *)
| AssertionError
| OverflowError
| OperationalError     (* sqlite3.OperationalError *)
| OtherError           (* any other subclass of Exception *)
| SystemExit
| KeyboardInterrupt
| GreenletExit.

Record exn := Exn { exn_cls : exn_class; exn_msg : string }.

(** [isinstance(e, Exception)]: the last three derive from BaseException only. *)
Definition is_Exception (e : exn) : bool :=
  match exn_cls e with
  | SystemExit | KeyboardInterrupt | GreenletExit => false
  | _ => true
  end.

Definition is_class (c : exn_class) (e : exn) : bool :=
  match c, exn_cls e with
  | SocketTimeout, SocketTimeout | ProtocolError, ProtocolError
  | EventError, EventError | ValueError, ValueError
  | AssertionError, AssertionError | OverflowError, OverflowError
  | OperationalError, OperationalError | OtherError, OtherError
  | SystemExit, SystemExit | KeyboardInterrupt, KeyboardInterrupt
  | GreenletExit, GreenletExit => true
  | _, _ => false
  end.

(** ** Bytes and integers *)

Definition byte_of_Z (z : Z) : byte :=
  match Byte.of_N (Z.to_N (z mod 256)) with
  | Some b => b
  | None => x00
  end.

Definition Z_of_byte (b : byte) : Z := Z.of_N (Byte.to_N b).

(** The [n] low-order base-256 digits of [z], most significant first. *)
Fixpoint be_digits (n : nat) (z : Z) : list byte :=
  match n with
  | O => []
  | S k => be_digits k (z / 256) ++ [byte_of_Z (z mod 256)]
  end.

(** [z.to_bytes(n, 'big')], unsigned. *)
Definition to_bytes (z : Z) (n : nat) : exn + list byte :=
  if z <? 0 then
    inl (Exn OverflowError "can't convert negative int to unsigned")
  else if 256 ^ Z.of_nat n <=? z then
    inl (Exn OverflowError "int too big to convert")
  else inr (be_digits n z).

(** [int.from_bytes(bs, 'big')]. *)
Definition from_bytes (bs : list byte) : Z :=
  fold_left (fun acc b => acc * 256 + Z_of_byte b) bs 0.

(** [s.encode('utf8')]: a [str] is held as its UTF-8 bytes. *)
Definition encode_utf8 (s : string) : list byte :=
  List.map Ascii.byte_of_ascii (String.list_ascii_of_string s).

Definition MAGIC : list byte := [xde; xad; xbe; xef].

#[export] Instance byte_eq_dec : EqDecision byte := Byte.byte_eq_dec.

Definition bytes_eqb (a b : list byte) : bool := bool_decide (a = b).

(** ** Typed values, [TValue = Union[str, int, float]] *)

(** A Python float is kept as the expression that produced it; its binary
    rounding is left to the platform's [struct.pack]. *)
Inductive pyfloat :=
| TrueDiv (n d : Z)           (* n / d on ints *)
| FloatLit (s : string).      (* float(s) *)

Inductive TValue :=
| VInt (n : Z)
| VFloat (f : pyfloat)
| VStr (s : string).

(** ** [int(value)] on a [str]

    Decimal ASCII text, as the command line and the tests produce it: blanks
    around it, a sign, digits with single underscores.  Python also reads
    the decimal digits and white space of other scripts; those are not
    modelled and are rejected here. *)

Definition is_space (a : ascii) : bool :=
  let n := nat_of_ascii a in
  bool_decide (n = 32%nat) || (bool_decide (9 <= n)%nat && bool_decide (n <= 13)%nat).

Definition digit_of (a : ascii) : option Z :=
  let n := nat_of_ascii a in
  if bool_decide (48 <= n)%nat && bool_decide (n <= 57)%nat
  then Some (Z.of_nat (n - 48)) else None.

(** Decimal digits, single underscores allowed between two digits. *)
Fixpoint int_digits (acc : Z) (after_digit : bool) (l : list ascii) : option Z :=
  match l with
  | [] => if after_digit then Some acc else None
  | a :: l' =>
      if bool_decide (a = "_"%char) then
        if after_digit then int_digits acc false l' else None
      else
        match digit_of a with
        | Some d => int_digits (acc * 10 + d) true l'
        | None => None
        end
  end.

Fixpoint lstrip (l : list ascii) : list ascii :=
  match l with
  | a :: l' => if is_space a then lstrip l' else l
  | [] => []
  end.

Definition strip (l : list ascii) : list ascii :=
  rev (lstrip (rev (lstrip l))).

Definition py_int (s : string) : exn + Z :=
  let r :=
    match strip (String.list_ascii_of_string s) with
    | "-"%char :: l => Z.opp <$> int_digits 0 false l
    | "+"%char :: l => int_digits 0 false l
    | l => int_digits 0 false l
    end in
  match r with
  | Some z => inr z
  | None => inl (Exn ValueError ("invalid literal for int() with base 10: '" +:+ s +:+ "'"))
  end.

(** ** Sensors ([sensors.py]): the per-kind [_value] *)

(** [float(value)] succeeds on the strings the platform reads as a float. *)
Definition Mass_value (is_float_literal : string -> bool) (value : string)
  : exn + TValue :=
  if is_float_literal value then inr (VFloat (FloatLit value))
  else inl (Exn ValueError ("could not convert string to float: '" +:+ value +:+ "'")).

Definition dq : string := String "034"%char EmptyString.

Definition End_value (value : string) : exn + TValue :=
  if bool_decide (value = "press") || bool_decide (value = "release")
  then inr (VStr value)
  else inl (Exn ValueError
         ("need to be " +:+ dq +:+ "press" +:+ dq +:+ " or " +:+ dq +:+ "release"
          +:+ dq +:+ ", got " +:+ dq +:+ value +:+ dq)).

Definition Temperature_value (value : string) : exn + TValue :=
  match py_int value with
  | inl e => inl e
  | inr value =>
      if (value <? -500) || (value >? 500)
      then inl (Exn ValueError "must be between -500 and 500")
      else inr (VFloat (TrueDiv value 10))
  end.

Definition Keyboard_value (value : string) : exn + TValue := inr (VStr value).

Inductive webhook_sensor := Mass | End.
Inductive proto_sensor := Temperature | Keyboard.

Definition proto_value (k : proto_sensor) : string -> exn + TValue :=
  match k with
  | Temperature => Temperature_value
  | Keyboard => Keyboard_value
  end.

Definition webhook_value (is_float_literal : string -> bool) (k : webhook_sensor)
  : string -> exn + TValue :=
  match k with
  | Mass => Mass_value is_float_literal
  | End => End_value
  end.

(** ** The [events] table of a pull device

<<
    CREATE TABLE IF NOT EXISTS events (
        id integer primary key AUTOINCREMENT, ts integer, value text)
    CREATE INDEX IF NOT EXISTS time on events(ts)
>>
    [sqlite_sequence] is the AUTOINCREMENT bookkeeping: the largest rowid
    ever handed out. *)

Record events_row := EventsRow { row_id : Z; row_ts : Z; row_value : string }.

Record pull_db := PullDb { events : list events_row; sqlite_sequence : Z }.

Definition pull_db_empty : pull_db := PullDb [] 0.

Inductive sqlval := SInt (n : Z) | SText (s : string).

(** The columns of [events], by name.  [time] names the index, not a column. *)
Definition events_columns : list (string * (events_row -> sqlval)) :=
  [ ("id", fun r => SInt (row_id r));
    ("ts", fun r => SInt (row_ts r));
    ("value", fun r => SText (row_value r)) ].

Fixpoint resolve_column {A} (cols : list (string * A)) (name : string) : option A :=
  match cols with
  | [] => None
  | (c, get) :: cols' =>
      if bool_decide (c = name) then Some get else resolve_column cols' name
  end.

(** [column >= ?] with an integer bound to [?].  Against a column of text
    affinity the parameter is compared as text, byte-wise. *)
Definition sql_ge (v : sqlval) (bound : Z) : bool :=
  match v with
  | SInt n => bound <=? n
  | SText s => negb (String.ltb s (pretty bound))
  end.

(** [ORDER BY ts]: rows of equal [ts] stay in rowid order. *)
Fixpoint insert_by_ts (r : events_row) (l : list events_row) : list events_row :=
  match l with
  | [] => [r]
  | r' :: l' =>
      if row_ts r' <=? row_ts r then r' :: insert_by_ts r l' else r :: l
  end.

Definition order_by_ts (l : list events_row) : list events_row :=
  fold_left (fun acc r => insert_by_ts r acc) l [].

Definition max_rowid (l : list events_row) : Z :=
  fold_right (fun r m => Z.max (row_id r) m) 0 l.

Definition int64_ok (z : Z) : bool := (- 2 ^ 63 <=? z) && (z <? 2 ^ 63).

(** [SELECT id, ts, value FROM events WHERE <where_col> >= ? ORDER BY ts].
    Preparing the statement resolves [where_col] among the table's columns. *)
Definition select_events (where_col : string) (bound : Z) (db : pull_db)
  : exn + list events_row :=
  match resolve_column events_columns where_col with
  | None => inl (Exn OperationalError ("no such column: " +:+ where_col))
  | Some get =>
      if int64_ok bound then
        inr (order_by_ts (List.filter (fun r => sql_ge (get r) bound) (events db)))
      else inl (Exn OverflowError "Python int too large to convert to SQLite INTEGER")
  end.

(** [INSERT INTO events (ts, value) VALUES (?, ?)] and [lastrowid].  [io_ok]
    is whether the storage accepts the write; a statement that fails leaves
    the tables as they were.  An AUTOINCREMENT table whose largest rowid so
    far is 2^63 - 1 takes no further row: the insert fails with "database or
    disk is full". *)
Definition insert_event (io_ok : bool) (ts : Z) (value : string) (db : pull_db)
  : (exn + Z) * pull_db :=
  if negb (int64_ok ts) then
    (inl (Exn OverflowError "Python int too large to convert to SQLite INTEGER"), db)
  else if negb io_ok then
    (inl (Exn OperationalError "disk I/O error"), db)
  else if 2 ^ 63 - 1 <=? Z.max (sqlite_sequence db) (max_rowid (events db)) then
    (inl (Exn OperationalError "database or disk is full"), db)
  else
    let rowid := Z.max (sqlite_sequence db) (max_rowid (events db)) + 1 in
    (inr rowid, PullDb (events db ++ [EventsRow rowid ts value]) rowid).

(** ** Connections: a state-and-exception monad over the socket *)

Inductive chunk :=
| Data (bs : list byte)     (* bytes that arrive together *)
| TimedOut.                  (* nothing arrives within the socket timeout *)

Record conn := Conn {
  inbox : list chunk;       (* what the peer will send; empty: peer closed *)
  sent : list byte;         (* what the server has sent so far *)
  closed : bool
}.

Definition M (A : Type) : Type := conn -> (exn + A) * conn.

Definition ret {A} (a : A) : M A := fun c => (inr a, c).
Definition raise {A} (e : exn) : M A := fun c => (inl e, c).
Definition bind {A B} (m : M A) (k : A -> M B) : M B :=
  fun c => match m c with
           | (inr a, c') => k a c'
           | (inl e, c') => (inl e, c')
           end.
Definition lift {A} (r : exn + A) : M A := fun c => (r, c).

(** [try: m  except <class>: h]. *)
Definition try_except {A} (m : M A) (catches : exn -> bool) (h : exn -> M A) : M A :=
  fun c => match m c with
           | (inl e, c') => if catches e then h e c' else (inl e, c')
           | r => r
           end.

#[export] Instance M_ret : MRet M := @ret.
#[export] Instance M_bind : MBind M := fun A B k m => bind m k.

(** [conn.recv(n)]: at most [n] bytes of what has arrived; [b''] once the
    peer has closed. *)
Definition recv (n : nat) : M (list byte) := fun c =>
  match inbox c with
  | [] => (inr [], c)
  | TimedOut :: rest =>
      (inl (Exn SocketTimeout "timed out"), Conn rest (sent c) (closed c))
  | Data bs :: rest =>
      if bool_decide (length bs <= n)%nat
      then (inr bs, Conn rest (sent c) (closed c))
      else (inr (take n bs), Conn (Data (drop n bs) :: rest) (sent c) (closed c))
  end.

Definition send (bs : list byte) : M unit := fun c =>
  (inr tt, Conn (inbox c) (sent c ++ bs) (closed c)).

Definition close : M unit := fun c =>
  (inr tt, Conn (inbox c) (sent c) true).

(** [for x in l: f x]. *)
Fixpoint for_each {A} (f : A -> M unit) (l : list A) : M unit :=
  match l with
  | [] => ret tt
  | x :: l' => f x;; for_each f l'
  end.

(** ** [CustomEventProtoDevice]: the pull device and its query server *)

Record CustomEventProtoDevice := ProtoDevice {
  cp_name : string;
  cp_kind : proto_sensor;     (* the subclass, which supplies [_value] *)
  cp_db : pull_db
}.

(** [__init__] on the database file found in the data directory ([None]: no
    file yet); both CREATE statements are IF NOT EXISTS. *)
Definition CustomEventProtoDevice_init (name : string) (kind : proto_sensor)
    (on_disk : option pull_db) : CustomEventProtoDevice :=
  ProtoDevice name kind (default pull_db_empty on_disk).

(** [with self.cursor() as c: body]: the lock is taken, the body runs, the
    transaction is committed when the body returns, and the lock is released
    on every path.  Nothing is rolled back when the body raises. *)
Definition cursor {DB A} (body : DB -> (exn + A) * DB) (db : DB) : (exn + A) * DB :=
  body db.

(** [CustomEventProtoDevice.event]; [str(value)] of a [str] is the value. *)
Definition CustomEventProtoDevice_event (io_ok : bool)
    (self : CustomEventProtoDevice) (ts : Z) (value : string)
  : (exn + Z) * CustomEventProtoDevice :=
  let '(r, db) := cursor (insert_event io_ok ts value) (cp_db self) in
  (r, ProtoDevice (cp_name self) (cp_kind self) db).

Section QueryServer.

(** [struct.pack('f', x)]: the platform's single-precision encoding, in
    native byte order; it raises on a float outside the single range. *)
Variable struct_pack_f : pyfloat -> exn + list byte.

(** The read phase of [serve] (the inner [try] block). *)
Definition read_request (address : string) : M Z :=
  magic_number ← recv 4;
  if negb (bytes_eqb magic_number MAGIC) then
    raise (Exn ProtocolError ("Wrong magic number from " +:+ address))
  else
    timestamp_b ← recv 8;
    let timestamp := from_bytes timestamp_b in
    term ← recv 1;
    if negb (bytes_eqb term [x00]) then
      raise (Exn ProtocolError ("Wrong term from " +:+ address))
    else ret timestamp.

(** The length-prefixed value of one record. *)
Definition send_value (value : TValue) : M unit :=
  match value with
  | VInt n =>
      len ← lift (to_bytes 8 4); send len;;
      b ← lift (to_bytes n 8); send b
  | VFloat f =>
      len ← lift (to_bytes 8 4); send len;;
      b ← lift (struct_pack_f f); send b
  | VStr s =>
      let b_value := encode_utf8 s in
      len ← lift (to_bytes (Z.of_nat (length b_value)) 4); send len;;
      send b_value
  end.

(** The body of the [for] loop of [serve]. *)
Definition send_event (_value : string -> exn + TValue) (r : events_row) : M unit :=
  value ← lift (_value (row_value r));
  b ← lift (to_bytes (row_id r) 8); send b;;
  b ← lift (to_bytes (row_ts r) 8); send b;;
  send_value value.

(** What [serve] writes once it holds the rows. *)
Definition send_reply (_value : string -> exn + TValue) (rows : list events_row)
  : M unit :=
  send MAGIC;;
  count ← lift (to_bytes (Z.of_nat (length rows)) 4); send count;;
  for_each (send_event _value) rows;;
  send [x00];;
  close.

(** The reply phase of [serve], the body of its [with self.cursor()]: the
    statement is executed as it is written in the source,
    [WHERE time >= ? ORDER BY ts], and reads the tables only. *)
Definition reply (self : CustomEventProtoDevice) (timestamp : Z) : M unit :=
  rows ← lift (select_events "time" timestamp (cp_db self));
  send_reply (proto_value (cp_kind self)) rows.

Definition serve (self : CustomEventProtoDevice) (address : string) : M unit :=
  try_except
    (request ← try_except
                 (timestamp ← read_request address; ret (Some timestamp))
                 (fun e => is_class SocketTimeout e || is_class ProtocolError e)
                 (fun _ => close;; ret None);
     match request with
     | None => ret tt
     | Some timestamp => reply self timestamp
     end)
    is_Exception
    (fun e => close;; raise e).

(** [run]: every accepted connection is handed to the pool, which runs
    [serve] on it in a greenlet of its own; what [serve] raises stays in
    that greenlet. *)
Definition CustomEventProtoDevice_run (self : CustomEventProtoDevice)
    (accepted : list (string * list chunk)) : list ((exn + unit) * conn) :=
  List.map (fun a => serve self (fst a) (Conn (snd a) [] false)) accepted.

End QueryServer.

(** ** [WebhookDevice]: the push device

<<
    CREATE TABLE IF NOT EXISTS subscription (callback_url VARCHAR(255))
    CREATE TABLE IF NOT EXISTS event_id (id int integer)
>> *)

Record webhook_db := WebhookDb {
  subscription : list string;     (* rows of [subscription] *)
  event_id : list Z               (* rows of [event_id] *)
}.

Definition webhook_db_empty : webhook_db := WebhookDb [] [].

Record WebhookDevice := PushDevice {
  wh_name : string;
  wh_kind : webhook_sensor;       (* the subclass, which supplies [_value] *)
  callback_url : option string;
  wh_db : webhook_db
}.

(** [__init__]: the tables are created if missing and the callback is
    loaded from the first row of [subscription], if any. *)
Definition WebhookDevice_init (name : string) (kind : webhook_sensor)
    (on_disk : option webhook_db) : WebhookDevice :=
  let db := default webhook_db_empty on_disk in
  PushDevice name kind (head (subscription db)) db.

(** [DELETE FROM subscription WHERE 1] *)
Definition delete_subscriptions (db : webhook_db) : (exn + unit) * webhook_db :=
  (inr tt, WebhookDb [] (event_id db)).

(** [INSERT INTO subscription VALUES (?)] *)
Definition insert_subscription (callback : string) (db : webhook_db)
  : (exn + unit) * webhook_db :=
  (inr tt, WebhookDb (subscription db ++ [callback]) (event_id db)).

(** [SELECT id FROM event_id] and [fetchone()] *)
Definition select_event_id (db : webhook_db) : option Z := head (event_id db).

(** [UPDATE event_id SET id = ?]: every existing row is rewritten.  The
    statement is taken to succeed; binding an id beyond 2^63 - 1, which only
    a row holding 2^63 - 1 can lead to, is not modelled. *)
Definition update_event_id (id : Z) (db : webhook_db) : (exn + unit) * webhook_db :=
  (inr tt, WebhookDb (subscription db) (List.map (fun _ => id) (event_id db))).

Record response := Response { status : Z; body : string }.

Section Subscribe.

(** [urllib.parse.urlparse]: the [scheme] and [netloc] of the result, or
    the exception it raises. *)
Variable urlparse : string -> exn + (string * string).

(** The [try] block of [subscribe]. *)
Definition check_callback (callback : string) : exn + unit :=
  match urlparse callback with
  | inl err => inl err
  | inr (scheme, netloc) =>
      if bool_decide (scheme = EmptyString) then inl (Exn OtherError "No scheme")
      else if bool_decide (netloc = EmptyString) then inl (Exn OtherError "No host")
      else inr tt
  end.

(** The [/subscribe] route; [callback] is [request.args.get('callback')]. *)
Definition subscribe (callback : option string) (self : WebhookDevice)
  : response * WebhookDevice :=
  match callback with
  | None => (Response 400 "Missing callback param", self)
  | Some callback =>
      match check_callback callback with
      | inl err =>
          (Response 400 ("Wrong callback format: " +:+ exn_msg err), self)
      | inr _ =>
          let '(_, db) :=
            cursor (fun db =>
                      let '(_, db) := delete_subscriptions db in
                      insert_subscription callback db)
                   (wh_db self) in
          (Response 200 "OK",
           PushDevice (wh_name self) (wh_kind self) (Some callback) db)
      end
  end.

End Subscribe.

(** What [requests.post] gives when it returns: a response, or a
    [RequestException].  No timeout is passed to it, so a POST may also never
    return; that outcome is not among these, and what is proved of a
    delivery is proved of deliveries whose POSTs return. *)
Inductive post_result :=
| HttpResponse (status_code : Z) (content_repr : string)
| RequestException (msg : string).

(** [res.ok]: the status is not a 4xx or 5xx. *)
Definition response_ok (status_code : Z) : bool :=
  negb ((400 <=? status_code) && (status_code <? 600)).

(** [request_error] after one attempt; [None] on success. *)
Definition request_error (r : post_result) : option string :=
  match r with
  | HttpResponse status_code content_repr =>
      if response_ok status_code then None
      else Some ("callback returned " +:+ pretty status_code +:+ ": " +:+ content_repr)
  | RequestException msg => Some msg
  end.

(** The JSON body of a delivery. *)
Record event_body := EventBody { ev_id : Z; ev_time : Z; ev_value : string }.

(** What a device does to the world outside its own memory. *)
Inductive io_event :=
| DbCursor (dev : string)                    (* a cursor on the device's database *)
| Post (url : string) (ev : event_body)      (* requests.post(url, json=ev) *)
| Sleep (seconds : Z).                       (* gevent.sleep(seconds) *)

(** The [while True] loop of [WebhookDevice.event]; [k] counts the attempts
    made so far.  [None]: the loop is still running when the fuel is gone.
    [url] is [self.callback_url] as the loop finds it; the source reads the
    attribute again at each attempt, so a subscribe served during a sleep
    would change it, and such interleaving is outside the model. *)
Fixpoint send_loop (fuel : nat) (net : string -> nat -> post_result)
    (url : string) (ev : event_body) (k : nat) (retries : Z)
  : option ((exn + Z) * list io_event) :=
  match fuel with
  | O => None
  | S fuel' =>
      match request_error (net url k) with
      | None => Some (inr (ev_id ev), [Post url ev])
      | Some err =>
          if retries =? 0 then Some (inl (Exn EventError err), [Post url ev])
          else
            match send_loop fuel' net url ev (S k) (retries - 1) with
            | Some (r, tr) => Some (r, Post url ev :: Sleep 5 :: tr)
            | None => None
            end
      end
  end.

Definition WebhookDevice_event (fuel : nat) (net : string -> nat -> post_result)
    (self : WebhookDevice) (ts : Z) (value : string) (retries : Z)
  : option ((exn + Z) * WebhookDevice * list io_event) :=
  match callback_url self with
  | None => Some (inl (Exn EventError "No subscriptions"), self, [])
  | Some url =>
      let '(r, db) :=
        cursor (fun db =>
                  let event_id :=
                    match select_event_id db with
                    | Some row => row + 1
                    | None => 1
                    end in
                  let '(_, db) := update_event_id event_id db in
                  (inr (EventBody event_id ts value), db))
               (wh_db self) in
      let self' := PushDevice (wh_name self) (wh_kind self) (callback_url self) db in
      match r with
      | inl err => Some (inl err, self', [DbCursor (wh_name self)])
      | inr event =>
          match send_loop fuel net url event 0 retries with
          | Some (r, tr) => Some (r, self', DbCursor (wh_name self) :: tr)
          | None => None
          end
      end
  end.

(** ** The control-plane dispatcher ([event_socket.py]) *)

(** What [json.loads] returns. *)
#[warnings="-register-all"]
Inductive json :=
| JNull
| JBool (b : bool)
| JInt (n : Z)
| JFloat (lit : string)
| JStr (s : string)
| JList (l : list json)
| JDict (items : list (string * json)).

(** [isinstance(x, int)]: a [bool] is an [int]. *)
Definition as_int (x : json) : option Z :=
  match x with
  | JInt n => Some n
  | JBool b => Some (if b then 1 else 0)
  | _ => None
  end.

Definition as_str (x : json) : option string :=
  match x with
  | JStr s => Some s
  | _ => None
  end.

Inductive Device :=
| Webhook (d : WebhookDevice)
| CustomEventProto (d : CustomEventProtoDevice).

(** The world around the dispatcher during one request. *)
Record env := Env {
  env_fuel : nat;                                (* bound on webhook attempts *)
  env_net : string -> nat -> post_result;        (* the webhook destinations *)
  env_io_ok : bool                               (* the storage accepts writes *)
}.

(** [device.event(ts, value, retries)], by dynamic dispatch. *)
Definition Device_event (w : env) (device : Device) (ts : Z) (value : string)
    (retries : Z) : option ((exn + Z) * Device * list io_event) :=
  match device with
  | Webhook d =>
      match WebhookDevice_event (env_fuel w) (env_net w) d ts value retries with
      | Some (r, d', tr) => Some (r, Webhook d', tr)
      | None => None
      end
  | CustomEventProto d =>
      let '(r, d') := CustomEventProtoDevice_event (env_io_ok w) d ts value in
      Some (r, CustomEventProto d', [DbCursor (cp_name d)])
  end.

Definition reply_id (event_id : Z) : json := JDict [("id", JInt event_id)].
Definition reply_error (message : string) : json := JDict [("error", JStr message)].

Section Dispatcher.

(** How Python prints the decoded request inside an f-string. *)
Variable repr : json -> string.

(** The assertions of [serve], in order, and the keyword arguments. *)
Definition parse_request (data : json) : exn + (string * Z * string * option Z) :=
  let fail what := inl (Exn AssertionError (what +:+ ": " +:+ repr data)) in
  match data with
  | JDict items =>
    match resolve_column items "dev_name" with
    | None => fail "dev_name not set" | Some dev_name =>
    match resolve_column items "ts" with
    | None => fail "ts not set" | Some ts =>
    match resolve_column items "value" with
    | None => fail "value not set" | Some value =>
    match as_str dev_name with
    | None => fail "dev_name fmt" | Some dev_name =>
    match as_int ts with
    | None => fail "ts fmt" | Some ts =>
    match as_str value with
    | None => fail "value fmt" | Some value =>
    match resolve_column items "retries" with
    | None => inr (dev_name, ts, value, None)
    | Some retries =>
      match as_int retries with
      | None => fail "retries fmt"
      | Some retries => inr (dev_name, ts, value, Some retries)
      end
    end end end end end end end
  | _ => fail "Data is not a dict"
  end.

(** The body of the outer [try] of [EventSocketServer.serve]: the reply it
    sends, or the exception that leaves it. *)
Definition serve_body (w : env) (devices : gmap string Device)
    (dgram : exn + json)
  : option ((exn + json) * gmap string Device * list io_event) :=
  match dgram with
  | inl err => Some (inl err, devices, [])
  | inr data =>
      match parse_request data with
      | inl err => Some (inl err, devices, [])
      | inr (dev_name, ts, value, kwargs) =>
          match devices !! dev_name with
          | None =>
              Some (inl (Exn ValueError ("Unknown device " +:+ dev_name)),
                    devices, [])
          | Some device =>
              match Device_event w device ts value (default 0 kwargs) with
              | None => None
              | Some (r, device', tr) =>
                  let devices' := <[dev_name := device']> devices in
                  match r with
                  | inr event_id => Some (inr (reply_id event_id), devices', tr)
                  | inl err =>
                      if is_class ValueError err then
                        Some (inl (Exn ValueError
                                     ("Wrong event data format: " +:+ exn_msg err)),
                              devices', tr)
                      else if is_class EventError err then
                        Some (inr (reply_error (exn_msg err)), devices', tr)
                      else Some (inl err, devices', tr)
                  end
              end
          end
      end
  end.

(** [EventSocketServer.serve] on the datagram [read_dgram] returned (or the
    exception it raised): the reply written to the socket, the device
    table afterwards, and what the devices did. *)
Definition EventSocketServer_serve (w : env) (devices : gmap string Device)
    (dgram : exn + json)
  : option ((exn + json) * gmap string Device * list io_event) :=
  match serve_body w devices dgram with
  | None => None
  | Some (r, devices', tr) =>
      let r' :=
        match r with
        | inr reply => inr reply
        | inl err =>
            if is_class AssertionError err then
              inr (reply_error ("wrong data received: " +:+ exn_msg err))
            else if is_class ValueError err then
              inr (reply_error (exn_msg err))
            else if is_Exception err then
              inr (reply_error ("Internal error: " +:+ exn_msg err))
            else inl err
        end in
      Some (r', devices', tr)
  end.

End Dispatcher.

(** ** The task runner ([listen.py]) *)

(** How a task's [run] ends. *)
Inductive run_result :=
| Returned
| Raised (e : exn).

Inductive log_line :=
| LogInfo (msg : string)
| LogException (msg : string).

(** [sys.exit(255)] raises [SystemExit(255)]. *)
Definition sys_exit (code : Z) : exn := Exn SystemExit (pretty code).

(** [runner(f_run, d_name)]: what it logs and the exception that leaves it.
    Both branches of the [try] end in [sys.exit(255)], which [except
    Exception] does not catch, so the [while True] body runs once. *)
Definition runner (f_run : run_result) (d_name : string) : list log_line * exn :=
  match f_run with
  | Returned =>
      ([LogInfo ("Starting " +:+ d_name); LogInfo (d_name +:+ " stopped. Exiting")],
       sys_exit 255)
  | Raised e =>
      if is_Exception e then
        ([LogInfo ("Starting " +:+ d_name);
          LogException ("Exception in " +:+ d_name +:+ " runtime:")],
         sys_exit 255)
      else ([LogInfo ("Starting " +:+ d_name)], e)
  end.

(** The process: the greenlets still serving, the log, and the exit status
    once the main greenlet has left [joinall]. *)
Record process := Process {
  serving : list string;
  logged : list log_line;
  exit_status : option Z
}.

(** The greenlets spawned at start: one per device, then the dispatcher. *)
Definition spawn_all (device_names : list string) : process :=
  Process (List.map (fun name => "[device " +:+ name +:+ "]") device_names
             ++ ["event listener"]) [] None.

(** A greenlet ends with exception [e].  gevent's hub re-raises
    [SystemExit] and [KeyboardInterrupt] in the main greenlet, which is
    blocked in [joinall] and handles [KeyboardInterrupt] only: the
    interpreter exits and every greenlet goes with it.  A [GreenletExit] or
    an ordinary exception ends that greenlet alone. *)
Definition greenlet_raised (name : string) (e : exn) (p : process) : process :=
  match exn_cls e with
  | SystemExit =>
      Process [] (logged p) (Some (match py_int (exn_msg e) with inr code => code | inl _ => 1 end))
  | KeyboardInterrupt => Process [] (logged p) (Some 0)
  | _ =>
      Process (List.filter (fun n => negb (bool_decide (n = name))) (serving p))
              (logged p) None
  end.

(** The task [d_name] stops: its [run] returned or raised inside [runner]. *)
Definition task_exits (d_name : string) (f_run : run_result) (p : process) : process :=
  let '(lines, e) := runner f_run d_name in
  greenlet_raised d_name e (Process (serving p) (logged p ++ lines) (exit_status p)).

(** ** Datagrams on the event socket ([EventSocket]) *)

Section Datagrams.

(** [json.dumps(data).encode('utf8')] *)
Variable dumps : json -> list byte.

(** [json.loads(raw.decode('utf8'))], or the exception it raises *)
Variable loads : list byte -> exn + json.

Definition send_dgram (data : json) : M unit :=
  let b_data := dumps data in
  len ← lift (to_bytes (Z.of_nat (length b_data)) 4); send len;;
  send b_data.

Definition read_dgram : M json :=
  b_len ← recv 4;
  let data_len := from_bytes b_len in
  data_raw ← recv (Z.to_nat data_len);
  lift (loads data_raw).

End Datagrams.

(** ** The injecting client ([EventSocketClient], [event.py]) *)

(** The [data] dict built by [EventSocketClient.event]. *)
Definition client_data (dev_name : string) (ts : Z) (value : string)
    (retries : option Z) : json :=
  JDict ([("dev_name", JStr dev_name); ("ts", JInt ts); ("value", JStr value)]
           ++ match retries with
              | Some retries => [("retries", JInt retries)]
              | None => []
              end).

(** [key in x] for a decoded JSON value. *)
Definition py_in (key : string) (x : json) : exn + bool :=
  match x with
  | JDict items => inr (bool_decide (is_Some (resolve_column items key)))
  | JList l =>
      inr (existsb (fun y => match y with
                             | JStr s => bool_decide (s = key)
                             | _ => false
                             end) l)
  | JStr s => inr (bool_decide (is_Some (String.index 0 key s)))
  | _ => inl (Exn OtherError "argument is not iterable")
  end.

(** [x[key]] with a [str] key. *)
Definition py_getitem (x : json) (key : string) : exn + json :=
  match x with
  | JDict items =>
      match resolve_column items key with
      | Some v => inr v
      | None => inl (Exn OtherError ("KeyError: " +:+ key))
      end
  | JList _ => inl (Exn OtherError "list indices must be integers or slices, not str")
  | JStr _ => inl (Exn OtherError "string indices must be integers")
  | _ => inl (Exn OtherError "object is not subscriptable")
  end.

(** What the client meets on the socket: the connect fails, the reply is
    not JSON, or a reply is decoded. *)
Inductive client_io :=
| ConnectFails
| ReplyNotJson
| Reply (reply : json).

(** [EventSocketClient.event] from the connect on: [None] stands for the
    bare [return]. *)
Definition EventSocketClient_event (io : client_io) : exn + option json :=
  match io with
  | ConnectFails => inr None
  | ReplyNotJson => inr None
  | Reply reply =>
      match py_in "error" reply with
      | inl e => inl e
      | inr true =>
          (* log.error(f'Server said: {reply["error"]}') *)
          match py_getitem reply "error" with
          | inl e => inl e
          | inr _ => inr None
          end
      | inr false =>
          match py_in "id" reply with
          | inl e => inl e
          | inr false => inr None
          | inr true =>
              match py_getitem reply "id" with
              | inl e => inl e
              | inr id =>
                  match as_int id with
                  | Some _ => inr (Some id)
                  | None => inr None
                  end
              end
          end
      end
  end.

(** [pos_int] of [event.py], the argparse type of [--retries]. *)
Definition pos_int (val : string) : exn + Z :=
  match py_int val with
  | inl e => inl e
  | inr val =>
      if val <? 0 then inl (Exn OtherError "Positive int required")
      else inr val
  end.

(** The request [event.py] sends: [ts=args.ts or int(time.time())]. *)
Definition event_py_request (ts_arg retries_arg : option Z) (device value : string)
    (now : Z) : json :=
  let ts :=
    match ts_arg with
    | Some ts => if ts =? 0 then now else ts
    | None => now
    end in
  client_data device ts value retries_arg.

(** ** The dispatcher's loop ([EventSocketServer.run]) *)

(** What [run] finds at the socket path. *)
Inductive socket_start :=
| Listening                       (* unlink and bind went through *)
| UnlinkFails (err : string)      (* the path exists and cannot be removed *)
| BindFails (err : string).       (* bind raised OSError *)

(** The [while True] loop, over the connections accepted: each is served to
    the end before the next is accepted.  The result is the replies in
    order, the exception that left the loop if one did, the device table and
    what the devices did. *)
Fixpoint EventSocketServer_loop (repr : json -> string)
    (devices : gmap string Device) (accepted : list (env * (exn + json)))
  : option (list json * option exn * gmap string Device * list io_event) :=
  match accepted with
  | [] => Some ([], None, devices, [])
  | (w, dgram) :: accepted' =>
      match EventSocketServer_serve repr w devices dgram with
      | None => None
      | Some (inl e, devices', tr) => Some ([], Some e, devices', tr)
      | Some (inr reply, devices', tr) =>
          match EventSocketServer_loop repr devices' accepted' with
          | None => None
          | Some (replies, stop, devices'', tr') =>
              Some (reply :: replies, stop, devices'', tr ++ tr')
          end
      end
  end.

(** How [run] ends before it serves anything; [None]: it is listening. *)
Definition EventSocketServer_run_start (s : socket_start) : option run_result :=
  match s with
  | Listening => None
  | UnlinkFails err => Some (Raised (Exn OtherError err))
  | BindFails _ => Some Returned
  end.

(** ** Device creation at start-up ([listen.py]) *)

Record DeviceConfig := { dc_type : string; dc_host : string; dc_port : string }.

Inductive device_class :=
| WebhookClass (kind : webhook_sensor)
| ProtoClass (kind : proto_sensor).

Definition device_map (type : string) : option device_class :=
  if bool_decide (type = "mass") then Some (WebhookClass Mass)
  else if bool_decide (type = "end") then Some (WebhookClass End)
  else if bool_decide (type = "temperature") then Some (ProtoClass Temperature)
  else if bool_decide (type = "keyboard") then Some (ProtoClass Keyboard)
  else None.

(** What the constructors find: the database files of earlier runs and, for
    a device that cannot open its database or bind its port, the exception. *)
Record host_state := HostState {
  webhook_files : string -> option webhook_db;
  proto_files : string -> option pull_db;
  init_error : string -> option exn
}.

(** [device_cls(base_path, name, dc.host, dc.port)] *)
Definition construct (h : host_state) (cls : device_class) (name : string)
  : exn + Device :=
  match init_error h name with
  | Some e => inl e
  | None =>
      inr (match cls with
           | WebhookClass kind =>
               Webhook (WebhookDevice_init name kind (webhook_files h name))
           | ProtoClass kind =>
               CustomEventProto
                 (CustomEventProtoDevice_init name kind (proto_files h name))
           end)
  end.

(** The loop over [config.devices.items()] that fills [devices]. *)
Fixpoint create_devices (h : host_state) (config : list (string * DeviceConfig))
    (devices : gmap string Device) : exn + gmap string Device :=
  match config with
  | [] => inr devices
  | (name, dc) :: config' =>
      match device_map (dc_type dc) with
      | None => inl (Exn ValueError ("Unknown device type " +:+ dc_type dc))
      | Some cls =>
          match construct h cls name with
          | inl e => if is_Exception e then inl (sys_exit 255) else inl e
          | inr device => create_devices h config' (<[name := device]> devices)
          end
      end
  end.

(** ** Vocabulary of the statements *)

(** A run of subscribe calls, in order. *)
Definition subscribe_all (urlparse : string -> exn + (string * string))
    (calls : list (option string)) (self : WebhookDevice) : WebhookDevice :=
  fold_left (fun d callback => snd (subscribe urlparse callback d)) calls self.

(** A run of ingestions into a pull device: per call, whether the storage
    accepts the write, the timestamp and the raw value. *)
Fixpoint ingest_all (calls : list (bool * Z * string)) (self : CustomEventProtoDevice)
  : list (exn + Z) * CustomEventProtoDevice :=
  match calls with
  | [] => ([], self)
  | (io_ok, ts, value) :: calls' =>
      let '(r, self') := CustomEventProtoDevice_event io_ok self ts value in
      let '(rs, self'') := ingest_all calls' self' in
      (r :: rs, self'')
  end.

(** The ids of the calls that succeeded. *)
Definition returned_ids (rs : list (exn + Z)) : list Z :=
  omap (fun r => match r with inr id => Some id | inl _ => None end) rs.

(** One POST, then [n] times a 5-second sleep and another POST. *)
Fixpoint retry_trace (url : string) (ev : event_body) (n : nat) : list io_event :=
  match n with
  | O => [Post url ev]
  | S n' => Post url ev :: Sleep 5 :: retry_trace url ev n'
  end.

(** The number of POSTs in a trace. *)
Definition attempts (tr : list io_event) : nat :=
  length (List.filter (fun e => match e with Post _ _ => true | _ => false end) tr).

(** A request the read phase rejects: a read that times out, a first read
    that is not the magic marker, or a terminator read that is not [00]. *)
Inductive bad_request (c : conn) : Prop :=
| timeout_magic e c1 :
    recv 4 c = (inl e, c1) -> bad_request c
| wrong_magic m c1 :
    recv 4 c = (inr m, c1) -> m <> MAGIC -> bad_request c
| timeout_timestamp e c1 c2 :
    recv 4 c = (inr MAGIC, c1) -> recv 8 c1 = (inl e, c2) -> bad_request c
| timeout_term t e c1 c2 c3 :
    recv 4 c = (inr MAGIC, c1) -> recv 8 c1 = (inr t, c2) ->
    recv 1 c2 = (inl e, c3) -> bad_request c
| wrong_term t x c1 c2 c3 :
    recv 4 c = (inr MAGIC, c1) -> recv 8 c1 = (inr t, c2) ->
    recv 1 c2 = (inr x, c3) -> x <> [x00] -> bad_request c.

(** A typed value the reply can carry: an int that fits 8 unsigned bytes, a
    float the platform packs, a text whose length fits 4 bytes. *)
Definition encodable (pack : pyfloat -> exn + list byte) (v : TValue) : Prop :=
  match v with
  | VInt n => 0 <= n < 2 ^ 64
  | VFloat f => exists bs, pack f = inr bs
  | VStr s => Z.of_nat (length (encode_utf8 s)) < 2 ^ 32
  end.

(** Ascending timestamps. *)
Definition ts_le (r1 r2 : events_row) : Prop := row_ts r1 <= row_ts r2.

(** What [urlparse] gives on the URLs used in the examples: scheme and
    netloc of the two well-formed ones, neither for anything else. *)
Definition urlparse_examples (url : string) : exn + (string * string) :=
  if bool_decide (url = "http://old.example/cb") then inr ("http", "old.example")
  else if bool_decide (url = "http://new.example/cb") then inr ("http", "new.example")
  else inr (EmptyString, EmptyString).

(** A well-formed injection request without [retries]. *)
Definition request (dev_name : string) (ts : Z) (value : string) : json :=
  JDict [("dev_name", JStr dev_name); ("ts", JInt ts); ("value", JStr value)].

(** The request names the device [dev_name]. *)
Definition names_device (data : json) (dev_name : string) : Prop :=
  exists items,
    data = JDict items /\ resolve_column items "dev_name" = Some (JStr dev_name).

(** A stored row the reply can carry: ids and timestamps fit 8 unsigned
    bytes and the raw value coerces to an encodable typed value. *)
Definition row_encodable (pack : pyfloat -> exn + list byte)
    (_value : string -> exn + TValue) (r : events_row) : Prop :=
  0 <= row_id r < 2 ^ 64 /\ 0 <= row_ts r < 2 ^ 64 /\
  exists v, _value (row_value r) = inr v /\ encodable pack v.

(** What happens to a push device over time: subscribe calls and
    ingestions, in any order. *)
Inductive webhook_op :=
| DoSubscribe (callback : option string)
| DoEvent (fuel : nat) (net : string -> nat -> post_result) (ts : Z)
          (value : string) (retries : Z).

(** The device after a run of operations; [None] when an ingestion is still
    retrying at the end of its fuel. *)
Fixpoint webhook_run (urlparse : string -> exn + (string * string))
    (ops : list webhook_op) (self : WebhookDevice) : option WebhookDevice :=
  match ops with
  | [] => Some self
  | DoSubscribe callback :: ops' =>
      webhook_run urlparse ops' (snd (subscribe urlparse callback self))
  | DoEvent fuel net ts value retries :: ops' =>
      match WebhookDevice_event fuel net self ts value retries with
      | Some (_, self', _) => webhook_run urlparse ops' self'
      | None => None
      end
  end.

(** A decimal digit, as [int] reads it. *)
Definition is_digit_char (a : ascii) : Prop :=
  (exists d, digit_of a = Some d) /\ a <> "_"%char /\ a <> "-"%char /\
  a <> "+"%char /\ is_space a = false.

(** * Properties *)

(** ** Big-endian integers *)

Lemma Z_of_byte_of_Z (z : Z) : Z_of_byte (byte_of_Z z) = z mod 256.
Proof.
  unfold Z_of_byte, byte_of_Z.
  pose proof (Z.mod_pos_bound z 256 ltac:(lia)) as Hb.
  destruct (Byte.of_N (Z.to_N (z mod 256))) as [b|] eqn:E.
  - apply Byte.to_of_N in E. rewrite E. apply Z2N.id. lia.
  - apply Byte.of_N_None_iff in E. apply N2Z.inj_lt in E.
    rewrite Z2N.id in E by lia. simpl in E. lia.
Qed.

Lemma Z_of_byte_range (b : byte) : 0 <= Z_of_byte b < 256.
Proof. unfold Z_of_byte. pose proof (Byte.to_N_bounded b). lia. Qed.

Lemma length_be_digits (n : nat) (z : Z) : length (be_digits n z) = n.
Proof.
  revert z. induction n as [|n IH]; intros z; simpl; [done|].
  rewrite length_app, IH. simpl. lia.
Qed.

Lemma from_bytes_snoc (l : list byte) (b : byte) :
  from_bytes (l ++ [b]) = from_bytes l * 256 + Z_of_byte b.
Proof. unfold from_bytes. by rewrite fold_left_app. Qed.

Lemma from_bytes_be_digits (n : nat) (z : Z) :
  0 <= z < 256 ^ Z.of_nat n -> from_bytes (be_digits n z) = z.
Proof.
  revert z. induction n as [|n IH]; intros z Hz.
  - simpl in *. unfold from_bytes. simpl. lia.
  - simpl be_digits. rewrite from_bytes_snoc, Z_of_byte_of_Z, Z.mod_mod by lia.
    rewrite Nat2Z.inj_succ, Z.pow_succ_r in Hz by lia.
    rewrite IH.
    + pose proof (Z.div_mod z 256 ltac:(lia)). lia.
    + split; [apply Z.div_pos; lia|].
      apply Z.div_lt_upper_bound; lia.
Qed.

Lemma to_bytes_ok (z : Z) (n : nat) :
  0 <= z < 256 ^ Z.of_nat n -> to_bytes z n = inr (be_digits n z).
Proof.
  intros [H0 H1]. unfold to_bytes.
  destruct (Z.ltb_spec z 0); [lia|].
  destruct (Z.leb_spec (256 ^ Z.of_nat n) z); [lia|done].
Qed.

Lemma to_bytes_inv (z : Z) (n : nat) (bs : list byte) :
  to_bytes z n = inr bs -> 0 <= z < 256 ^ Z.of_nat n /\ bs = be_digits n z.
Proof.
  unfold to_bytes.
  destruct (Z.ltb_spec z 0); [done|].
  destruct (Z.leb_spec (256 ^ Z.of_nat n) z); [done|].
  intros [= <-]. split; [lia|done].
Qed.

(** ** Event ids *)

Lemma max_rowid_snoc (l : list events_row) (r : events_row) :
  max_rowid (l ++ [r]) = Z.max (max_rowid l) (Z.max (row_id r) 0).
Proof.
  unfold max_rowid. induction l as [|r' l IH]; simpl; [lia|].
  rewrite IH. lia.
Qed.

(** A successful insert of the pull device returns [sqlite_sequence + 1] and
    advances the sequence by one; a failed one changes nothing. *)
Lemma proto_event_step (io_ok : bool) (self : CustomEventProtoDevice) (ts : Z)
    (value : string) :
  max_rowid (events (cp_db self)) <= sqlite_sequence (cp_db self) ->
  0 <= sqlite_sequence (cp_db self) ->
  match CustomEventProtoDevice_event io_ok self ts value with
  | (inr id, self') =>
      id = sqlite_sequence (cp_db self) + 1 /\
      sqlite_sequence (cp_db self') = id /\
      max_rowid (events (cp_db self')) <= id /\
      events (cp_db self') = events (cp_db self) ++ [EventsRow id ts value]
  | (inl _, self') => self' = self
  end.
Proof.
  intros Hmax Hpos. destruct self as [name kind db].
  unfold CustomEventProtoDevice_event, cursor, insert_event. simpl in *.
  destruct (int64_ok ts); simpl; [|done].
  destruct io_ok; simpl; [|done].
  destruct (Z.leb_spec (2 ^ 63 - 1)
              (Z.max (sqlite_sequence db) (max_rowid (events db)))); simpl; [done|].
  rewrite max_rowid_snoc. simpl. repeat split; lia.
Qed.

(** The pull device numbers its events consecutively: the ids returned by
    the successful calls of a run are [seq + 1, seq + 2, ...], whatever calls
    failed in between. *)
Lemma proto_ids_consecutive (calls : list (bool * Z * string))
    (self : CustomEventProtoDevice) :
  max_rowid (events (cp_db self)) <= sqlite_sequence (cp_db self) ->
  0 <= sqlite_sequence (cp_db self) ->
  let ids := returned_ids (fst (ingest_all calls self)) in
  ids = seqZ (sqlite_sequence (cp_db self) + 1) (Z.of_nat (length ids)).
Proof.
  revert self. induction calls as [|[[io_ok ts] value] calls IH];
    intros self Hmax Hpos; [done|].
  simpl. pose proof (proto_event_step io_ok self ts value Hmax Hpos) as Hstep.
  destruct (CustomEventProtoDevice_event io_ok self ts value) as [[e|id] self'].
  - subst self'. specialize (IH self Hmax Hpos).
    destruct (ingest_all calls self) as [rs self'']. exact IH.
  - destruct Hstep as (Hid & Hseq & Hmax' & _).
    specialize (IH self' ltac:(lia) ltac:(lia)).
    destruct (ingest_all calls self') as [rs self'']. simpl in *.
    unfold returned_ids in *. simpl.
    rewrite Nat2Z.inj_succ, seqZ_cons by lia.
    f_equal; [done|].
    rewrite IH at 1. f_equal; lia.
Qed.

(** On a fresh database the [event_id] table has no row, [UPDATE] rewrites
    existing rows only, so the table stays empty and every successful
    webhook ingestion returns 1. *)
Lemma webhook_event_id_stuck (fuel : nat) (net : string -> nat -> post_result)
    (self self' : WebhookDevice) (ts : Z) (value : string) (retries : Z)
    (r : exn + Z) (tr : list io_event) :
  event_id (wh_db self) = [] ->
  WebhookDevice_event fuel net self ts value retries = Some (r, self', tr) ->
  event_id (wh_db self') = [] /\ (forall id, r = inr id -> id = 1).
Proof.
  intros Hempty. unfold WebhookDevice_event, cursor, select_event_id, update_event_id.
  destruct (callback_url self) as [url|]; simpl.
  - rewrite Hempty. simpl.
    destruct (send_loop fuel net url (EventBody 1 ts value) 0 retries)
      as [[r0 tr0]|] eqn:Hloop; [|done].
    intros [= <- <- <-]. split; [done|].
    intros id ->. clear Hempty.
    revert Hloop. generalize 0%nat at 1. revert retries tr0.
    induction fuel as [|fuel IH]; intros retries tr0 k; simpl; [done|].
    destruct (request_error (net url k)).
    + destruct (retries =? 0); [done|].
      destruct (send_loop fuel net url _ (S k) (retries - 1)) as [[r1 tr1]|] eqn:E;
        [|done].
      intros [= -> <-]. eapply IH, E.
    + by intros [= <- <-].
  - intros [= <- <- <-]. done.
Qed.

(** C1 (fails on the push device).  The claim: the ids returned by
    successive successful ingestions into one device go up by exactly 1 from
    1.  A webhook device created on a fresh database and subscribed to a
    destination that accepts every delivery returns id 1 for the first
    ingestion and id 1 again for the second. *)
Theorem C1_webhook_ids_repeat :
  let net := fun (_ : string) (_ : nat) => HttpResponse 200 "b'ok'" in
  let urlparse := fun _ : string => inr ("http"%string, "collector:8000"%string) in
  let d0 := WebhookDevice_init "scale" Mass None in
  let d1 := snd (subscribe urlparse (Some "http://collector:8000/cb") d0) in
  exists d2 d3 tr2 tr3,
    WebhookDevice_event 1 net d1 100 "12.5" 0 = Some (inr 1, d2, tr2) /\
    WebhookDevice_event 1 net d2 101 "12.7" 0 = Some (inr 1, d3, tr3).
Proof. simpl. do 4 eexists. split; reflexivity. Qed.

(** ** The binary query server *)

Arguments to_bytes : simpl never.
Arguments be_digits : simpl never.
Arguments from_bytes : simpl never.
Arguments Z.pow : simpl never.

Ltac unfold_M :=
  unfold mbind, M_bind, bind, ret, raise, lift, send, close in *; simpl in *.

Lemma recv_raises (n : nat) (c c1 : conn) (e : exn) :
  recv n c = (inl e, c1) -> e = Exn SocketTimeout "timed out".
Proof.
  unfold recv. destruct (inbox c) as [|[bs|] rest]; [done| |congruence].
  by case_bool_decide.
Qed.

(** A rejected request ends [serve] normally, with the connection closed and
    nothing written to it. *)
Lemma serve_bad_request (pack : pyfloat -> exn + list byte)
    (self : CustomEventProtoDevice) (address : string) (c : conn) :
  bad_request c ->
  exists rest, serve pack self address c = (inr tt, Conn rest (sent c) true).
Proof.
  assert (Hsent : forall n c0 r c1, recv n c0 = (r, c1) ->
                    sent c1 = sent c0).
  { intros n c0 r c1. unfold recv.
    destruct (inbox c0) as [|[bs|] rest]; [by intros [= <- <-]| |by intros [= <- <-]].
    case_bool_decide; by intros [= <- <-]. }
  intros Hbad. unfold serve, try_except, read_request.
  destruct Hbad as [e c1 H4|m c1 H4 Hm|e c1 c2 H4 H8|t e c1 c2 c3 H4 H8 H1
                   |t x c1 c2 c3 H4 H8 H1 Hx]; unfold_M.
  - pose proof (recv_raises _ _ _ _ H4) as ->. rewrite H4. simpl.
    eexists. by rewrite <- (Hsent _ _ _ _ H4).
  - rewrite H4. unfold bytes_eqb. rewrite bool_decide_eq_false_2 by done. simpl.
    eexists. by rewrite <- (Hsent _ _ _ _ H4).
  - pose proof (recv_raises _ _ _ _ H8) as ->. rewrite H4. simpl. rewrite H8. simpl.
    eexists. by rewrite <- (Hsent _ _ _ _ H4), <- (Hsent _ _ _ _ H8).
  - pose proof (recv_raises _ _ _ _ H1) as ->. rewrite H4. simpl. rewrite H8. simpl.
    rewrite H1. simpl.
    eexists. by rewrite <- (Hsent _ _ _ _ H4), <- (Hsent _ _ _ _ H8),
                        <- (Hsent _ _ _ _ H1).
  - rewrite H4. simpl. rewrite H8. simpl. rewrite H1.
    unfold bytes_eqb. rewrite bool_decide_eq_false_2 by done. simpl.
    eexists. by rewrite <- (Hsent _ _ _ _ H4), <- (Hsent _ _ _ _ H8),
                        <- (Hsent _ _ _ _ H1).
Qed.

(** C7.  A connection whose request has a wrong magic marker or a wrong
    terminator, or whose read times out, is closed with no byte sent, [serve]
    returns without raising, and the listener serves the connections
    accepted before and after it as it would without it. *)
Theorem C7_bad_request_closed_silently (pack : pyfloat -> exn + list byte)
    (self : CustomEventProtoDevice) (address : string) (arriving : list chunk)
    (before after : list (string * list chunk)) :
  bad_request (Conn arriving [] false) ->
  exists rest,
    serve pack self address (Conn arriving [] false) = (inr tt, Conn rest [] true) /\
    CustomEventProtoDevice_run pack self (before ++ (address, arriving) :: after) =
      CustomEventProtoDevice_run pack self before
        ++ (inr tt, Conn rest [] true)
        :: CustomEventProtoDevice_run pack self after.
Proof.
  intros Hbad.
  destruct (serve_bad_request pack self address _ Hbad) as [rest Hserve].
  exists rest. split; [exact Hserve|].
  unfold CustomEventProtoDevice_run. rewrite List.map_app. simpl.
  by rewrite Hserve.
Qed.

(** A request that stops after the timestamp, the peer waiting for a reply. *)
Lemma C7_bad_request_closed_silently_witness :
  bad_request (Conn [Data (MAGIC ++ be_digits 8 150); TimedOut] [] false) /\
  exists rest,
    serve (fun _ => inr [x00; x00; xac; x41])
          (ProtoDevice "kbd" Keyboard pull_db_empty) "peer"
          (Conn [Data (MAGIC ++ be_digits 8 150); TimedOut] [] false)
      = (inr tt, Conn rest [] true) /\
    CustomEventProtoDevice_run (fun _ => inr [x00; x00; xac; x41])
          (ProtoDevice "kbd" Keyboard pull_db_empty)
          ([] ++ ("peer"%string, [Data (MAGIC ++ be_digits 8 150); TimedOut]) :: []) =
      CustomEventProtoDevice_run (fun _ => inr [x00; x00; xac; x41])
          (ProtoDevice "kbd" Keyboard pull_db_empty) []
        ++ (inr tt, Conn rest [] true)
        :: CustomEventProtoDevice_run (fun _ => inr [x00; x00; xac; x41])
             (ProtoDevice "kbd" Keyboard pull_db_empty) [].
Proof.
  assert (Hbad : bad_request (Conn [Data (MAGIC ++ be_digits 8 150); TimedOut] [] false))
    by (eapply timeout_term; reflexivity).
  split; [exact Hbad|].
  exact (C7_bad_request_closed_silently _ _ "peer"
           [Data (MAGIC ++ be_digits 8 150); TimedOut] [] [] Hbad).
Defined.

(** C6.  In the record of an event the value is length-prefixed: an integer
    is sent as 8 big-endian bytes after a length field of 8; a string as its
    UTF-8 bytes after a length field equal to their number; a float as the 4
    bytes of the platform's single-precision packing, after a length field
    that is 8 all the same. *)
Theorem C6_value_length_prefix (pack : pyfloat -> exn + list byte)
    (_value : string -> exn + TValue) (r : events_row) (v : TValue) (c : conn) :
  (forall f bs, pack f = inr bs -> length bs = 4%nat) ->
  _value (row_value r) = inr v ->
  0 <= row_id r < 2 ^ 64 ->
  0 <= row_ts r < 2 ^ 64 ->
  encodable pack v ->
  exists len payload,
    send_event pack _value r c =
      (inr tt, Conn (inbox c)
                    (sent c ++ be_digits 8 (row_id r) ++ be_digits 8 (row_ts r)
                       ++ len ++ payload)
                    (closed c)) /\
    length len = 4%nat /\
    match v with
    | VInt n => from_bytes len = 8 /\ length payload = 8%nat /\ from_bytes payload = n
    | VFloat f => from_bytes len = 8 /\ length payload = 4%nat /\ pack f = inr payload
    | VStr s => from_bytes len = Z.of_nat (length payload) /\ payload = encode_utf8 s
    end.
Proof.
  intros Hpack Hv Hid Hts Henc.
  unfold send_event, send_value. unfold_M. rewrite Hv.
  rewrite (to_bytes_ok (row_id r) 8), (to_bytes_ok (row_ts r) 8) by (simpl; lia).
  rewrite ?(to_bytes_ok 8 4) by (simpl; lia). simpl.
  destruct v as [n|f|s]; simpl in Henc.
  - exists (be_digits 4 8), (be_digits 8 n).
    rewrite (to_bytes_ok n 8) by (simpl; lia). simpl.
    rewrite <- !app_assoc. repeat split; try reflexivity.
    apply from_bytes_be_digits. simpl; lia.
  - destruct Henc as [bs Hbs]. exists (be_digits 4 8), bs.
    rewrite Hbs. simpl.
    rewrite <- !app_assoc. repeat split; try reflexivity; eauto.
  - exists (be_digits 4 (Z.of_nat (length (encode_utf8 s)))), (encode_utf8 s).
    rewrite to_bytes_ok by (simpl; lia). simpl.
    rewrite <- !app_assoc. repeat split; try reflexivity.
    apply from_bytes_be_digits. simpl; lia.
Qed.

(** A temperature reading of 21.5 degrees, packed as on a little-endian
    platform. *)
Lemma C6_value_length_prefix_witness :
  let pack := fun _ : pyfloat => inr [x00; x00; xac; x41] : exn + list byte in
  let r := EventsRow 1 100 "215" in
  let v := VFloat (TrueDiv 215 10) in
  let c := Conn [] [] false in
  (forall f bs, pack f = inr bs -> length bs = 4%nat) /\
  Temperature_value (row_value r) = inr v /\
  0 <= row_id r < 2 ^ 64 /\
  0 <= row_ts r < 2 ^ 64 /\
  encodable pack v /\
  exists len payload,
    send_event pack Temperature_value r c =
      (inr tt, Conn (inbox c)
                    (sent c ++ be_digits 8 (row_id r) ++ be_digits 8 (row_ts r)
                       ++ len ++ payload)
                    (closed c)) /\
    length len = 4%nat /\
    from_bytes len = 8 /\ length payload = 4%nat /\ pack (TrueDiv 215 10) = inr payload.
Proof.
  intros pack r v c.
  assert (Hpack : forall f bs, pack f = inr bs -> length bs = 4%nat)
    by (intros f bs [= <-]; reflexivity).
  assert (Hv : Temperature_value (row_value r) = inr v) by reflexivity.
  assert (Hid : 0 <= row_id r < 2 ^ 64) by (simpl; lia).
  assert (Hts : 0 <= row_ts r < 2 ^ 64) by (simpl; lia).
  assert (Henc : encodable pack v) by (eexists; reflexivity).
  repeat (split; [assumption|]).
  exact (C6_value_length_prefix pack Temperature_value r v c Hpack Hv Hid Hts Henc).
Defined.

Lemma mbind_unfold {A B} (m : M A) (k : A -> M B) (c : conn) :
  (m ≫= k) c =
    match m c with
    | (inr a, c') => k a c'
    | (inl e, c') => (inl e, c')
    end.
Proof. reflexivity. Qed.

Lemma for_each_app {A} (f : A -> M unit) (l1 l2 : list A) (c : conn) :
  for_each f (l1 ++ l2) c =
    match for_each f l1 c with
    | (inr _, c') => for_each f l2 c'
    | (inl e, c') => (inl e, c')
    end.
Proof.
  revert c. induction l1 as [|x l1 IH]; intros c; simpl; [done|].
  unfold mbind, M_bind, bind. destruct (f x c) as [[e|[]] c']; [done|]. apply IH.
Qed.

(** The reply writer stops at the first stored value that [_value] rejects:
    the marker, the count and the records before it are on the wire, the
    trailing [00] is not, and the exception leaves [send_reply]. *)
Lemma send_reply_aborts (pack : pyfloat -> exn + list byte)
    (_value : string -> exn + TValue) (good rest : list events_row)
    (bad : events_row) (e : exn) (c c2 : conn) :
  Z.of_nat (length (good ++ bad :: rest)) < 2 ^ 32 ->
  for_each (send_event pack _value) good
    (Conn (inbox c)
          (sent c ++ MAGIC ++ be_digits 4 (Z.of_nat (length (good ++ bad :: rest))))
          (closed c)) = (inr tt, c2) ->
  _value (row_value bad) = inl e ->
  send_reply pack _value (good ++ bad :: rest) c = (inl e, c2).
Proof.
  intros Hlen Hgood Hbad. unfold send_reply.
  rewrite mbind_unfold. unfold send at 1. simpl.
  rewrite mbind_unfold. unfold lift at 1. rewrite to_bytes_ok by (simpl; lia).
  rewrite mbind_unfold. unfold send at 1. simpl.
  rewrite mbind_unfold, for_each_app, <- app_assoc, Hgood. simpl.
  rewrite mbind_unfold. unfold send_event at 1.
  rewrite mbind_unfold. unfold lift at 1. by rewrite Hbad.
Qed.

(** The statement of the reply phase names a column the table does not
    have, so executing it raises before anything is written. *)
Lemma reply_raises (pack : pyfloat -> exn + list byte)
    (self : CustomEventProtoDevice) (timestamp : Z) (c : conn) :
  reply pack self timestamp c = (inl (Exn OperationalError "no such column: time"), c).
Proof. reflexivity. Qed.

Lemma serve_query_raises (pack : pyfloat -> exn + list byte)
    (self : CustomEventProtoDevice) (address : string) (timestamp : Z) (c c' : conn) :
  read_request address c = (inr timestamp, c') ->
  serve pack self address c =
    (inl (Exn OperationalError "no such column: time"), Conn (inbox c') (sent c') true).
Proof.
  intros Hread. unfold serve, try_except.
  unfold mbind at 1 2, M_bind. unfold bind at 1 2.
  rewrite Hread. reflexivity.
Qed.

(** *** The same statement over the column [ts] *)

Lemma insert_by_ts_perm (r : events_row) (l : list events_row) :
  insert_by_ts r l ≡ₚ r :: l.
Proof.
  induction l as [|r' l IH]; simpl; [done|].
  destruct (row_ts r' <=? row_ts r); [|done].
  rewrite IH. apply perm_swap.
Qed.

Lemma insert_by_ts_sorted (r : events_row) (l : list events_row) :
  Sorted ts_le l -> Sorted ts_le (insert_by_ts r l).
Proof.
  induction l as [|r' l IH]; intros Hs; simpl.
  - by repeat constructor.
  - destruct (Z.leb_spec (row_ts r') (row_ts r)) as [Hle|Hlt].
    + inversion_clear Hs as [|? ? Hs' Hhd]. constructor; [by apply IH|].
      destruct l as [|r'' l]; simpl.
      * by constructor.
      * destruct (row_ts r'' <=? row_ts r); constructor; [|done].
        by inversion_clear Hhd.
    + constructor; [done|]. constructor. unfold ts_le. lia.
Qed.

Lemma order_by_ts_acc (l acc : list events_row) :
  fold_left (fun acc r => insert_by_ts r acc) l acc ≡ₚ l ++ acc /\
  (Sorted ts_le acc -> Sorted ts_le (fold_left (fun acc r => insert_by_ts r acc) l acc)).
Proof.
  revert acc. induction l as [|r l IH]; intros acc; simpl; [done|].
  destruct (IH (insert_by_ts r acc)) as [Hp Hs]. split.
  - rewrite Hp, insert_by_ts_perm. by rewrite Permutation_middle.
  - intros Hacc. by apply Hs, insert_by_ts_sorted.
Qed.

(** With [ts] in place of [time] the statement selects exactly the rows
    with [ts >= bound], in ascending [ts]. *)
Lemma select_events_ts (bound : Z) (db : pull_db) :
  int64_ok bound = true ->
  exists rows,
    select_events "ts" bound db = inr rows /\
    Sorted ts_le rows /\
    rows ≡ₚ List.filter (fun r => bound <=? row_ts r) (events db).
Proof.
  intros Hb. unfold select_events. simpl. rewrite Hb.
  eexists. split; [done|]. unfold order_by_ts.
  destruct (order_by_ts_acc
              (List.filter (fun r => bound <=? row_ts r) (events db)) []) as [Hp Hs].
  split; [apply Hs; constructor|]. by rewrite Hp, app_nil_r.
Qed.

(** C2 (fails).  The claim: the query returns the stored events with
    [timestamp >= bound], sorted by timestamp.  On the store of events
    (1, 100, "42") and (2, 200, "press") a well-formed request with bound 150
    makes [serve] raise on executing its statement, with nothing sent and
    the connection closed; the same statement over the column [ts] selects
    event 2. *)
Theorem C2_query_raises_no_such_column (pack : pyfloat -> exn + list byte) :
  let db := PullDb [EventsRow 1 100 "42"; EventsRow 2 200 "press"] 2 in
  serve pack (ProtoDevice "kbd" Keyboard db) "peer"
        (Conn [Data (MAGIC ++ be_digits 8 150 ++ [x00])] [] false)
    = (inl (Exn OperationalError "no such column: time"), Conn [] [] true) /\
  select_events "ts" 150 db = inr [EventsRow 2 200 "press"].
Proof. split; reflexivity. Qed.

(** C10 (fails).  The claim: once a stored raw value fails coercion, a query
    selecting it is aborted after the reply marker, the count and the
    earlier records were sent.  A Temperature device accepts the raw value
    "9999", which its [_value] rejects; the following query for bound 0
    raises on executing its statement and the connection is closed with
    no byte sent, the marker included. *)
Theorem C10_no_reply_marker_sent (pack : pyfloat -> exn + list byte) :
  let d0 := CustomEventProtoDevice_init "thermo" Temperature None in
  exists d1 e,
    CustomEventProtoDevice_event true d0 100 "9999" = (inr 1, d1) /\
    events (cp_db d1) = [EventsRow 1 100 "9999"] /\
    Temperature_value "9999" = inl e /\
    serve pack d1 "peer" (Conn [Data (MAGIC ++ be_digits 8 0 ++ [x00])] [] false)
      = (inl (Exn OperationalError "no such column: time"), Conn [] [] true).
Proof. simpl. do 2 eexists. repeat split; reflexivity. Qed.

(** ** Webhook delivery *)

Lemma attempts_retry_trace (url : string) (ev : event_body) (n : nat) :
  attempts (retry_trace url ev n) = S n.
Proof.
  unfold attempts. induction n as [|n IH]; simpl; [done|]. by rewrite IH.
Qed.

(** Against a destination that fails every time, a budget of [retries >= 0]
    ends the loop after [retries + 1] posts, with the reason of the last. *)
Lemma send_loop_exhausts (fuel : nat) (net : string -> nat -> post_result)
    (url : string) (ev : event_body) (k : nat) (retries : Z) :
  0 <= retries ->
  (forall j, request_error (net url j) <> None) ->
  (Z.to_nat retries < fuel)%nat ->
  exists reason,
    request_error (net url (k + Z.to_nat retries)%nat) = Some reason /\
    send_loop fuel net url ev k retries =
      Some (inl (Exn EventError reason), retry_trace url ev (Z.to_nat retries)).
Proof.
  intros Hpos Hfail. revert k retries Hpos.
  induction fuel as [|fuel IH]; intros k retries Hpos Hfuel; [lia|].
  simpl. destruct (request_error (net url k)) as [err|] eqn:Herr;
    [|by destruct (Hfail k)].
  destruct (Z.eqb_spec retries 0) as [->|Hne].
  - exists err. simpl. by rewrite Nat.add_0_r.
  - destruct (IH (S k) (retries - 1) ltac:(lia) ltac:(lia)) as (reason & Hr & Hloop).
    exists reason. rewrite Hloop.
    replace (Z.to_nat retries) with (S (Z.to_nat (retries - 1))) by lia.
    split; [|done]. by rewrite <- Nat.add_succ_comm.
Qed.

(** With a negative budget the test [retries == 0] never holds: the loop
    outlives any number of steps. *)
Lemma send_loop_negative_budget (fuel : nat) (net : string -> nat -> post_result)
    (url : string) (ev : event_body) (k : nat) (retries : Z) :
  retries < 0 ->
  (forall j, request_error (net url j) <> None) ->
  send_loop fuel net url ev k retries = None.
Proof.
  intros Hneg Hfail. revert k retries Hneg.
  induction fuel as [|fuel IH]; intros k retries Hneg; [done|].
  simpl. destruct (request_error (net url k)) as [err|] eqn:Herr;
    [|by destruct (Hfail k)].
  destruct (Z.eqb_spec retries 0) as [->|Hne]; [lia|].
  by rewrite IH by lia.
Qed.

(** C4.  With a subscription and a destination that fails every time,
    [event] with retry budget [N >= 0] posts exactly [N + 1] times, sleeps 5
    between consecutive posts, and raises [EventError] with the reason of
    the last failure. *)
Theorem C4_retry_budget (fuel : nat) (net : string -> nat -> post_result)
    (self : WebhookDevice) (url : string) (ts : Z) (value : string) (N : Z) :
  callback_url self = Some url ->
  0 <= N ->
  (forall k, request_error (net url k) <> None) ->
  (Z.to_nat N < fuel)%nat ->
  exists reason self' ev,
    WebhookDevice_event fuel net self ts value N =
      Some (inl (Exn EventError reason), self',
            DbCursor (wh_name self) :: retry_trace url ev (Z.to_nat N)) /\
    request_error (net url (Z.to_nat N)) = Some reason /\
    attempts (retry_trace url ev (Z.to_nat N)) = S (Z.to_nat N) /\
    ev_time ev = ts /\ ev_value ev = value.
Proof.
  intros Hurl Hpos Hfail Hfuel.
  unfold WebhookDevice_event, cursor. rewrite Hurl. simpl.
  set (ev := EventBody _ ts value).
  destruct (send_loop_exhausts fuel net url ev 0 N Hpos Hfail Hfuel)
    as (reason & Hreason & Hloop).
  rewrite Hloop. exists reason. do 2 eexists.
  split; [reflexivity|]. split; [exact Hreason|].
  split; [apply attempts_retry_trace|done].
Qed.

(** [retries=2] against a destination answering 503: three posts. *)
Lemma C4_retry_budget_witness :
  let net := fun (_ : string) (_ : nat) => HttpResponse 503 "b'busy'" in
  let self := PushDevice "door" End (Some "http://collector/cb"%string) webhook_db_empty in
  callback_url self = Some "http://collector/cb"%string /\
  0 <= 2 /\
  (forall k, request_error (net "http://collector/cb"%string k) <> None) /\
  (Z.to_nat 2 < 3)%nat /\
  exists reason self' ev,
    WebhookDevice_event 3 net self 100 "press" 2 =
      Some (inl (Exn EventError reason), self',
            DbCursor (wh_name self) :: retry_trace "http://collector/cb" ev (Z.to_nat 2)) /\
    request_error (net "http://collector/cb"%string (Z.to_nat 2)) = Some reason /\
    attempts (retry_trace "http://collector/cb" ev (Z.to_nat 2)) = S (Z.to_nat 2) /\
    ev_time ev = 100 /\ ev_value ev = "press"%string.
Proof.
  intros net self.
  assert (Hurl : callback_url self = Some "http://collector/cb"%string) by reflexivity.
  assert (Hpos : 0 <= 2) by lia.
  assert (Hfail : forall k, request_error (net "http://collector/cb"%string k) <> None)
    by (intros k; discriminate).
  assert (Hfuel : (Z.to_nat 2 < 3)%nat) by (simpl; lia).
  repeat (split; [assumption|]).
  exact (C4_retry_budget 3 net self _ 100 "press" 2 Hurl Hpos Hfail Hfuel).
Defined.

(** ** The task runner *)

(** Whatever ends a task's [run], an ordinary exception or a return,
    [runner] leaves with [SystemExit(255)]. *)
Lemma runner_exits_255 (f_run : run_result) (d_name : string) :
  (forall e, f_run = Raised e -> is_Exception e = true) ->
  snd (runner f_run d_name) = sys_exit 255.
Proof.
  destruct f_run as [|e]; simpl; [done|]. intros H. by rewrite (H e eq_refl).
Qed.

(** C5 (amended).  When a task's [run] returns or raises an exception,
    [runner] logs the start and the stop of that task and exits the
    interpreter with status 255: no greenlet is left serving, the other
    devices and the dispatcher included. *)
Theorem C5_task_exit_ends_process (d_name : string) (f_run : run_result)
    (p : process) :
  (forall e, f_run = Raised e -> is_Exception e = true) ->
  exists line,
    task_exits d_name f_run p =
      Process [] (logged p ++ [LogInfo ("Starting " +:+ d_name); line]) (Some 255).
Proof.
  destruct f_run as [|e]; simpl.
  - intros _. by eexists.
  - intros He. unfold task_exits, runner. rewrite (He e eq_refl). by eexists.
Qed.

Lemma C5_task_exit_ends_process_witness :
  (forall e, Raised (Exn OtherError "accept failed") = Raised e ->
             is_Exception e = true) /\
  exists line,
    task_exits "[device thermo]" (Raised (Exn OtherError "accept failed"))
               (spawn_all ["thermo"; "door"]) =
      Process [] (logged (spawn_all ["thermo"; "door"])
                    ++ [LogInfo ("Starting " +:+ "[device thermo]"); line]) (Some 255).
Proof.
  assert (H : forall e, Raised (Exn OtherError "accept failed") = Raised e ->
                        is_Exception e = true)
    by (intros e [= <-]; reflexivity).
  split; [exact H|].
  exact (C5_task_exit_ends_process "[device thermo]" _ (spawn_all ["thermo"; "door"]) H).
Defined.

(** C5 as stated does not hold: with devices [thermo] and [door] running,
    the return of [thermo]'s listener also ends [door]'s listener and the
    dispatcher, which were serving before. *)
Lemma C5_other_tasks_do_not_survive :
  ~ (forall other : string,
       other <> "[device thermo]"%string ->
       In other (serving (spawn_all ["thermo"; "door"])) ->
       In other (serving (task_exits "[device thermo]" Returned
                                     (spawn_all ["thermo"; "door"])))).
Proof.
  intros H. apply (H "event listener"%string).
  - discriminate.
  - simpl. auto.
Qed.

(** ** The dispatcher *)

(** A request is rejected by an assertion only. *)
Lemma parse_request_raises (repr : json -> string) (data : json) (e : exn) :
  parse_request repr data = inl e -> exn_cls e = AssertionError.
Proof.
  unfold parse_request. intros H.
  repeat match type of H with
         | match ?x with _ => _ end = _ => destruct x; try discriminate H
         end;
    by injection H as <-.
Qed.

(** An accepted request carries the name found under [dev_name]. *)
Lemma parse_request_name (repr : json -> string) (data : json)
    (dev_name name value : string) (ts : Z) (kwargs : option Z) :
  names_device data dev_name ->
  parse_request repr data = inr (name, ts, value, kwargs) ->
  name = dev_name.
Proof.
  intros (items & -> & Hname). unfold parse_request. rewrite Hname. simpl.
  intros H.
  repeat match type of H with
         | match ?x with _ => _ end = _ => destruct x; try discriminate H
         end;
    by injection H as <-.
Qed.

(** C8.  A request that passes the field checks and names a device that is
    not in the table is answered with the error "Unknown device <name>";
    the device table is unchanged and no device opened a cursor on its
    database. *)
Theorem C8_unknown_device (repr : json -> string) (w : env)
    (devices : gmap string Device) (data : json) (dev_name value : string)
    (ts : Z) (kwargs : option Z) :
  parse_request repr data = inr (dev_name, ts, value, kwargs) ->
  devices !! dev_name = None ->
  EventSocketServer_serve repr w devices (inr data) =
    Some (inr (reply_error ("Unknown device " +:+ dev_name)), devices, []).
Proof.
  intros Hparse Hlookup. unfold EventSocketServer_serve, serve_body.
  rewrite Hparse, Hlookup. reflexivity.
Qed.

Lemma C8_unknown_device_witness :
  let repr := fun _ : json => "{...}"%string in
  let w := Env 1 (fun _ _ => HttpResponse 200 "b'ok'") true in
  let devices : gmap string Device :=
    {[ "thermo"%string :=
         CustomEventProto (CustomEventProtoDevice_init "thermo" Temperature None) ]} in
  parse_request repr (request "boiler" 100 "215") =
    inr ("boiler"%string, 100, "215"%string, None) /\
  devices !! "boiler"%string = None /\
  EventSocketServer_serve repr w devices (inr (request "boiler" 100 "215")) =
    Some (inr (reply_error "Unknown device boiler"), devices, []).
Proof.
  intros repr w devices.
  assert (Hparse : parse_request repr (request "boiler" 100 "215") =
                   inr ("boiler"%string, 100, "215"%string, None)) by reflexivity.
  assert (Hlookup : devices !! "boiler"%string = None) by reflexivity.
  repeat (split; [assumption|]).
  exact (C8_unknown_device repr w devices _ _ _ _ _ Hparse Hlookup).
Defined.

(** The pull device stores whatever raw value it is given, as long as the
    table has a rowid left: [event] never calls [_value]. *)
Lemma proto_event_accepts_any_value (self : CustomEventProtoDevice) (ts : Z)
    (value : string) :
  int64_ok ts = true ->
  Z.max (sqlite_sequence (cp_db self)) (max_rowid (events (cp_db self))) < 2 ^ 63 - 1 ->
  exists id self',
    CustomEventProtoDevice_event true self ts value = (inr id, self') /\
    In (EventsRow id ts value) (events (cp_db self')).
Proof.
  intros Hts Hroom. unfold CustomEventProtoDevice_event, cursor, insert_event.
  rewrite Hts. simpl.
  destruct (Z.leb_spec (2 ^ 63 - 1)
              (Z.max (sqlite_sequence (cp_db self)) (max_rowid (events (cp_db self)))));
    [lia|].
  do 2 eexists. split; [reflexivity|].
  simpl. apply in_or_app. right. by left.
Qed.

(** C3 (fails).  The claim: every ingestion coerces the raw value once
    before storing or delivering it, and a value outside the kind's domain is
    answered with an error and not stored.  The Temperature device is sent
    "9999" and the End device "ajar", both outside their domains: the
    dispatcher answers each with id 1, the first is stored as it is and the
    second is posted to the subscriber as it is. *)
Theorem C3_ingestion_skips_coercion (repr : json -> string) :
  let thermo := CustomEventProtoDevice_init "thermo" Temperature None in
  let door := PushDevice "door" End (Some "http://collector/cb"%string) webhook_db_empty in
  let devices : gmap string Device :=
    <["thermo"%string := CustomEventProto thermo]> {[ "door"%string := Webhook door ]} in
  let w := Env 1 (fun _ _ => HttpResponse 200 "b'ok'") true in
  (exists e, proto_value Temperature "9999" = inl e) /\
  (exists e, End_value "ajar" = inl e) /\
  (exists devices',
     EventSocketServer_serve repr w devices (inr (request "thermo" 100 "9999")) =
       Some (inr (reply_id 1), devices', [DbCursor "thermo"]) /\
     devices' !! "thermo"%string =
       Some (CustomEventProto
               (ProtoDevice "thermo" Temperature (PullDb [EventsRow 1 100 "9999"] 1)))) /\
  (exists devices',
     EventSocketServer_serve repr w devices (inr (request "door" 100 "ajar")) =
       Some (inr (reply_id 1), devices',
             [DbCursor "door"; Post "http://collector/cb" (EventBody 1 100 "ajar")])).
Proof.
  simpl. split; [by eexists|]. split; [by eexists|]. split.
  - eexists. split; reflexivity.
  - eexists. reflexivity.
Qed.

(** ** Subscriptions *)

Lemma subscribe_table_bound (urlparse : string -> exn + (string * string))
    (callback : option string) (self : WebhookDevice) :
  (length (subscription (wh_db self)) <= 1)%nat ->
  (length (subscription (wh_db (snd (subscribe urlparse callback self)))) <= 1)%nat.
Proof.
  intros H. unfold subscribe. destruct callback as [cb|]; [|done].
  destruct (check_callback urlparse cb); [done|]. simpl. lia.
Qed.

Lemma subscribe_all_table_bound (urlparse : string -> exn + (string * string))
    (calls : list (option string)) (self : WebhookDevice) :
  (length (subscription (wh_db self)) <= 1)%nat ->
  (length (subscription (wh_db (subscribe_all urlparse calls self))) <= 1)%nat.
Proof.
  revert self. unfold subscribe_all.
  induction calls as [|cb calls IH]; intros self H; [done|].
  simpl. by apply IH, subscribe_table_bound.
Qed.

Lemma send_loop_posts_to (fuel : nat) (net : string -> nat -> post_result)
    (url : string) (ev : event_body) (k : nat) (retries : Z) (r : exn + Z)
    (tr : list io_event) (url' : string) (ev' : event_body) :
  send_loop fuel net url ev k retries = Some (r, tr) ->
  In (Post url' ev') tr -> url' = url.
Proof.
  revert k retries r tr. induction fuel as [|fuel IH]; intros k retries r tr; [done|].
  simpl. destruct (request_error (net url k)).
  - destruct (retries =? 0).
    + intros [= <- <-] [[= <- _]|[]]. done.
    + destruct (send_loop fuel net url ev (S k) (retries - 1)) as [[r1 tr1]|] eqn:E;
        [|done].
      intros [= <- <-] [[= <- _]|[[=]|Hin]]; [done|]. eapply IH; eauto.
  - intros [= <- <-] [[= <- _]|[]]. done.
Qed.

(** Every delivery of [event] goes to the callback held at that moment. *)
Lemma event_posts_to_callback (fuel : nat) (net : string -> nat -> post_result)
    (self d : WebhookDevice) (ts : Z) (value : string) (retries : Z)
    (r : exn + Z) (tr : list io_event) (url : string) (ev : event_body) :
  WebhookDevice_event fuel net self ts value retries = Some (r, d, tr) ->
  In (Post url ev) tr -> callback_url self = Some url.
Proof.
  unfold WebhookDevice_event, cursor.
  destruct (callback_url self) as [cb|]; simpl; [|by intros [= <- <- <-] []].
  destruct (send_loop fuel net cb _ 0 retries) as [[r0 tr0]|] eqn:E; [|done].
  intros [= <- <- <-] [[=]|Hin]. f_equal. symmetry. eapply send_loop_posts_to; eauto.
Qed.

(** C9.  Through any run of subscribe calls the [subscription] table holds
    at most one row.  A callback without a scheme or without a host is
    answered 400 and changes nothing; a callback with both is answered 200,
    becomes the only row and the device's callback, and every later delivery
    goes to it. *)
Theorem C9_single_subscription (urlparse : string -> exn + (string * string))
    (self : WebhookDevice) (calls : list (option string)) (callback : string) :
  (length (subscription (wh_db self)) <= 1)%nat ->
  let before := subscribe_all urlparse calls self in
  let resp := fst (subscribe urlparse (Some callback) before) in
  let after := snd (subscribe urlparse (Some callback) before) in
  (length (subscription (wh_db before)) <= 1)%nat /\
  (length (subscription (wh_db after)) <= 1)%nat /\
  (forall scheme netloc,
     urlparse callback = inr (scheme, netloc) ->
     scheme = EmptyString \/ netloc = EmptyString ->
     status resp = 400 /\ after = before) /\
  (forall scheme netloc,
     urlparse callback = inr (scheme, netloc) ->
     scheme <> EmptyString -> netloc <> EmptyString ->
     resp = Response 200 "OK" /\
     callback_url after = Some callback /\
     subscription (wh_db after) = [callback] /\
     forall fuel net ts value retries r d tr url ev,
       WebhookDevice_event fuel net after ts value retries = Some (r, d, tr) ->
       In (Post url ev) tr -> url = callback).
Proof.
  intros Hlen before resp after.
  assert (Hbefore : (length (subscription (wh_db before)) <= 1)%nat)
    by apply subscribe_all_table_bound, Hlen.
  split; [exact Hbefore|]. split; [by apply subscribe_table_bound|].
  subst resp after. unfold subscribe, check_callback. split.
  - intros scheme netloc -> Hmissing.
    destruct Hmissing as [-> | ->]; simpl; [done|].
    by case_bool_decide.
  - intros scheme netloc -> Hscheme Hnetloc.
    rewrite !bool_decide_eq_false_2 by done. simpl.
    repeat split; try done.
    intros fuel net ts value retries r d tr url ev Hev Hin.
    pose proof (event_posts_to_callback _ _ _ _ _ _ _ _ _ _ _ Hev Hin) as Hcb.
    simpl in Hcb. congruence.
Qed.

(** A rejected callback, then a first subscription, then its replacement. *)
Lemma C9_single_subscription_witness :
  let self := WebhookDevice_init "door" End None in
  let calls := [Some "not-a-url"%string; Some "http://old.example/cb"%string] in
  (length (subscription (wh_db self)) <= 1)%nat /\
  let before := subscribe_all urlparse_examples calls self in
  let resp := fst (subscribe urlparse_examples (Some "http://new.example/cb"%string) before) in
  let after := snd (subscribe urlparse_examples (Some "http://new.example/cb"%string) before) in
  (length (subscription (wh_db before)) <= 1)%nat /\
  (length (subscription (wh_db after)) <= 1)%nat /\
  (forall scheme netloc,
     urlparse_examples "http://new.example/cb" = inr (scheme, netloc) ->
     scheme = EmptyString \/ netloc = EmptyString ->
     status resp = 400 /\ after = before) /\
  (forall scheme netloc,
     urlparse_examples "http://new.example/cb" = inr (scheme, netloc) ->
     scheme <> EmptyString -> netloc <> EmptyString ->
     resp = Response 200 "OK" /\
     callback_url after = Some "http://new.example/cb"%string /\
     subscription (wh_db after) = ["http://new.example/cb"%string] /\
     forall fuel net ts value retries r d tr url ev,
       WebhookDevice_event fuel net after ts value retries = Some (r, d, tr) ->
       In (Post url ev) tr -> url = "http://new.example/cb"%string).
Proof.
  intros self calls.
  assert (Hlen : (length (subscription (wh_db self)) <= 1)%nat) by (simpl; lia).
  split; [exact Hlen|].
  exact (C9_single_subscription urlparse_examples self calls
           "http://new.example/cb" Hlen).
Defined.

(** * Further properties of the code *)

(** ** Reading a query *)

Lemma recv_whole (n : nat) (bs : list byte) (rest : list chunk)
    (out : list byte) (cl : bool) :
  (length bs <= n)%nat ->
  recv n (Conn (Data bs :: rest) out cl) = (inr bs, Conn rest out cl).
Proof. intros H. unfold recv. simpl. by rewrite bool_decide_eq_true_2. Qed.

Lemma recv_front (n : nat) (a b : list byte) (rest : list chunk)
    (out : list byte) (cl : bool) :
  length a = n -> b <> [] ->
  recv n (Conn (Data (a ++ b) :: rest) out cl) =
    (inr a, Conn (Data b :: rest) out cl).
Proof.
  intros Ha Hb. unfold recv. simpl.
  rewrite bool_decide_eq_false_2.
  - by rewrite take_app_length', drop_app_length'.
  - rewrite length_app. destruct b; [done|]. simpl. lia.
Qed.

(** X1.  A request that arrives in one piece, marker, 8-byte big-endian
    bound and [00], is read back as that bound, whatever follows it on the
    connection; nothing is sent while reading. *)
Theorem X1_request_decodes_to_bound (address : string) (bound : Z)
    (rest : list chunk) (out : list byte) (cl : bool) :
  0 <= bound < 2 ^ 64 ->
  read_request address
    (Conn (Data (MAGIC ++ be_digits 8 bound ++ [x00]) :: rest) out cl)
  = (inr bound, Conn rest out cl).
Proof.
  intros Hb. unfold read_request.
  rewrite mbind_unfold, recv_front by done.
  change (bytes_eqb MAGIC MAGIC) with true. cbn [negb].
  rewrite mbind_unfold, recv_front by (done || apply length_be_digits).
  rewrite mbind_unfold, recv_whole by (simpl; lia).
  change (bytes_eqb [x00] [x00]) with true. cbn [negb].
  unfold ret. by rewrite from_bytes_be_digits by (simpl; lia).
Qed.

Lemma X1_request_decodes_to_bound_witness :
  0 <= 150 < 2 ^ 64 /\
  read_request "peer"
    (Conn (Data (MAGIC ++ be_digits 8 150 ++ [x00]) :: []) [] false)
  = (inr 150, Conn [] [] false).
Proof.
  assert (H : 0 <= 150 < 2 ^ 64) by lia.
  split; [exact H|].
  exact (X1_request_decodes_to_bound "peer" 150 [] [] false H).
Defined.

(** X2.  The number of timestamp bytes read is not checked: when the read
    after the marker returns a fragment of 1 to 8 bytes and the next read
    returns [00], the fragment alone is taken as the bound. *)
Theorem X2_short_timestamp_is_accepted (address : string) (fragment : list byte)
    (rest : list chunk) (out : list byte) (cl : bool) :
  fragment <> [] ->
  (length fragment <= 8)%nat ->
  read_request address
    (Conn (Data MAGIC :: Data fragment :: Data [x00] :: rest) out cl)
  = (inr (from_bytes fragment), Conn rest out cl).
Proof.
  intros _ Hlen. unfold read_request.
  rewrite mbind_unfold, recv_whole by (simpl; lia). simpl.
  rewrite mbind_unfold, recv_whole by done.
  rewrite mbind_unfold, recv_whole by (simpl; lia). done.
Qed.

(** The bound 150 cut after its sixth byte is read as bound 0. *)
Lemma X2_short_timestamp_is_accepted_witness :
  take 6 (be_digits 8 150) <> [] /\
  (length (take 6 (be_digits 8 150)) <= 8)%nat /\
  read_request "peer"
    (Conn (Data MAGIC :: Data (take 6 (be_digits 8 150)) :: Data [x00] :: []) [] false)
  = (inr (from_bytes (take 6 (be_digits 8 150))), Conn [] [] false).
Proof.
  assert (H0 : take 6 (be_digits 8 150) <> []) by (vm_compute; discriminate).
  assert (H : (length (take 6 (be_digits 8 150)) <= 8)%nat) by (vm_compute; lia).
  repeat (split; [assumption|]).
  exact (X2_short_timestamp_is_accepted "peer" _ [] [] false H0 H).
Defined.

(** ** Writing a reply *)

(** The bytes a row contributes do not depend on the connection. *)
Lemma send_event_bytes (pack : pyfloat -> exn + list byte)
    (_value : string -> exn + TValue) (r : events_row) :
  row_encodable pack _value r ->
  exists record,
    (20 <= length record)%nat /\
    take 16 record = be_digits 8 (row_id r) ++ be_digits 8 (row_ts r) /\
    forall c, send_event pack _value r c =
                (inr tt, Conn (inbox c) (sent c ++ record) (closed c)).
Proof.
  intros (Hid & Hts & v & Hv & Henc).
  assert (Hstep : forall tail : list byte,
    (4 <= length tail)%nat ->
    (20 <= length (be_digits 8 (row_id r) ++ be_digits 8 (row_ts r) ++ tail))%nat /\
    take 16 (be_digits 8 (row_id r) ++ be_digits 8 (row_ts r) ++ tail) =
      be_digits 8 (row_id r) ++ be_digits 8 (row_ts r)).
  { intros tail Htail. split.
    - rewrite !length_app, !length_be_digits. lia.
    - rewrite app_assoc. apply take_app_length'.
      by rewrite length_app, !length_be_digits. }
  unfold send_event, send_value.
  destruct v as [n|f|s]; simpl in Henc.
  - exists (be_digits 8 (row_id r) ++ be_digits 8 (row_ts r)
              ++ be_digits 4 8 ++ be_digits 8 n).
    destruct (Hstep (be_digits 4 8 ++ be_digits 8 n)) as [H1 H2].
    { rewrite length_app, !length_be_digits. lia. }
    split; [exact H1|]. split; [exact H2|]. intros c. unfold_M. rewrite Hv.
    rewrite (to_bytes_ok (row_id r) 8), (to_bytes_ok (row_ts r) 8) by (simpl; lia).
    rewrite ?(to_bytes_ok 8 4) by (simpl; lia). simpl.
    rewrite (to_bytes_ok n 8) by (simpl; lia). simpl.
    rewrite <- ?app_assoc. reflexivity.
  - destruct Henc as [bs Hbs].
    exists (be_digits 8 (row_id r) ++ be_digits 8 (row_ts r) ++ be_digits 4 8 ++ bs).
    destruct (Hstep (be_digits 4 8 ++ bs)) as [H1 H2].
    { rewrite length_app, !length_be_digits. lia. }
    split; [exact H1|]. split; [exact H2|]. intros c. unfold_M. rewrite Hv.
    rewrite (to_bytes_ok (row_id r) 8), (to_bytes_ok (row_ts r) 8) by (simpl; lia).
    rewrite ?(to_bytes_ok 8 4) by (simpl; lia). simpl. rewrite Hbs. simpl.
    rewrite <- ?app_assoc. reflexivity.
  - exists (be_digits 8 (row_id r) ++ be_digits 8 (row_ts r)
              ++ be_digits 4 (Z.of_nat (length (encode_utf8 s))) ++ encode_utf8 s).
    destruct (Hstep (be_digits 4 (Z.of_nat (length (encode_utf8 s))) ++ encode_utf8 s))
      as [H1 H2].
    { rewrite length_app, !length_be_digits. lia. }
    split; [exact H1|]. split; [exact H2|]. intros c. unfold_M. rewrite Hv.
    rewrite (to_bytes_ok (row_id r) 8), (to_bytes_ok (row_ts r) 8) by (simpl; lia).
    rewrite to_bytes_ok by (simpl; lia). simpl.
    rewrite <- ?app_assoc. reflexivity.
Qed.

Lemma for_each_records (pack : pyfloat -> exn + list byte)
    (_value : string -> exn + TValue) (rows : list events_row) :
  Forall (row_encodable pack _value) rows ->
  exists records,
    Forall2 (fun r record =>
               take 16 record = be_digits 8 (row_id r) ++ be_digits 8 (row_ts r) /\
               forall c, send_event pack _value r c =
                           (inr tt, Conn (inbox c) (sent c ++ record) (closed c)))
            rows records /\
    forall c, for_each (send_event pack _value) rows c =
                (inr tt, Conn (inbox c) (sent c ++ concat records) (closed c)).
Proof.
  induction 1 as [|r rows Hr _ (records & Hall & Hrun)].
  - exists []. split; [constructor|]. intros [i o cl]. simpl.
    unfold ret. by rewrite app_nil_r.
  - destruct (send_event_bytes pack _value r Hr) as (record & _ & Hhead & Hrec).
    exists (record :: records). split; [by constructor|].
    intros c. simpl. rewrite mbind_unfold, Hrec, Hrun. simpl.
    by rewrite <- app_assoc.
Qed.

(** X3.  When every selected row is encodable, the reply is the marker, the
    4-byte count of rows, one record per row in the order of the rows, each
    starting with the row's id and timestamp, and a final [00]; the
    connection is then closed. *)
Theorem X3_reply_layout (pack : pyfloat -> exn + list byte)
    (_value : string -> exn + TValue) (rows : list events_row) (c : conn) :
  Z.of_nat (length rows) < 2 ^ 32 ->
  Forall (row_encodable pack _value) rows ->
  exists records,
    Forall2 (fun r record =>
               take 16 record = be_digits 8 (row_id r) ++ be_digits 8 (row_ts r) /\
               forall c0, send_event pack _value r c0 =
                            (inr tt, Conn (inbox c0) (sent c0 ++ record) (closed c0)))
            rows records /\
    send_reply pack _value rows c =
      (inr tt, Conn (inbox c)
                    (sent c ++ MAGIC ++ be_digits 4 (Z.of_nat (length rows))
                       ++ concat records ++ [x00])
                    true).
Proof.
  intros Hlen Hrows.
  destruct (for_each_records pack _value rows Hrows) as (records & Hall & Hrun).
  exists records. split; [exact Hall|].
  unfold send_reply.
  rewrite mbind_unfold. unfold send at 1. simpl.
  rewrite mbind_unfold. unfold lift at 1. rewrite to_bytes_ok by (simpl; lia).
  rewrite mbind_unfold. unfold send at 1. simpl.
  rewrite mbind_unfold, Hrun. simpl.
  rewrite mbind_unfold. unfold send at 1, close. simpl.
  by rewrite <- !app_assoc.
Qed.

Lemma X3_reply_layout_witness :
  let rows := [EventsRow 1 100 "42"; EventsRow 2 200 "press"] in
  let c := Conn [] [] false in
  Z.of_nat (length rows) < 2 ^ 32 /\
  Forall (row_encodable (fun _ => inr [x00; x00; xac; x41]) Keyboard_value) rows /\
  exists records,
    Forall2 (fun r record =>
               take 16 record = be_digits 8 (row_id r) ++ be_digits 8 (row_ts r) /\
               forall c0, send_event (fun _ => inr [x00; x00; xac; x41]) Keyboard_value r c0 =
                            (inr tt, Conn (inbox c0) (sent c0 ++ record) (closed c0)))
            rows records /\
    send_reply (fun _ => inr [x00; x00; xac; x41]) Keyboard_value rows c =
      (inr tt, Conn (inbox c)
                    (sent c ++ MAGIC ++ be_digits 4 (Z.of_nat (length rows))
                       ++ concat records ++ [x00])
                    true).
Proof.
  intros rows c.
  assert (Hlen : Z.of_nat (length rows) < 2 ^ 32) by (simpl; lia).
  assert (Hrows : Forall (row_encodable (fun _ => inr [x00; x00; xac; x41])
                                        Keyboard_value) rows).
  { repeat constructor; simpl; try lia; eexists; (split; [reflexivity|]);
      simpl; lia. }
  repeat (split; [assumption|]).
  exact (X3_reply_layout _ Keyboard_value rows c Hlen Hrows).
Defined.

(** X4.  On a pull device whose table has a rowid left, a negative
    timestamp within the 64-bit range is stored by [event] under the next
    id, but the reply writer cannot send the row: it raises after the row's
    id has gone out, since [to_bytes] is unsigned. *)
Theorem X4_negative_timestamp_poisons_reply (pack : pyfloat -> exn + list byte)
    (_value : string -> exn + TValue) (self : CustomEventProtoDevice)
    (ts : Z) (value : string) (v : TValue) (c : conn) :
  - 2 ^ 63 <= ts < 0 ->
  _value value = inr v ->
  max_rowid (events (cp_db self)) <= sqlite_sequence (cp_db self) ->
  0 <= sqlite_sequence (cp_db self) < 2 ^ 63 - 1 ->
  let id := sqlite_sequence (cp_db self) + 1 in
  exists self',
    CustomEventProtoDevice_event true self ts value = (inr id, self') /\
    events (cp_db self') = events (cp_db self) ++ [EventsRow id ts value] /\
    send_event pack _value (EventsRow id ts value) c =
      (inl (Exn OverflowError "can't convert negative int to unsigned"),
       Conn (inbox c) (sent c ++ be_digits 8 id) (closed c)).
Proof.
  intros Hts Hv Hmax Hseq id.
  assert (Hok : int64_ok ts = true).
  { unfold int64_ok. apply andb_true_intro. split; [apply Z.leb_le|apply Z.ltb_lt]; lia. }
  pose proof (proto_event_step true self ts value Hmax ltac:(lia)) as Hstep.
  destruct (CustomEventProtoDevice_event true self ts value) as [[e|id'] self'] eqn:Hev.
  { exfalso. revert Hev. unfold CustomEventProtoDevice_event, cursor, insert_event.
    rewrite Hok. simpl.
    destruct (Z.leb_spec (2 ^ 63 - 1)
                (Z.max (sqlite_sequence (cp_db self)) (max_rowid (events (cp_db self)))));
      [lia|done]. }
  destruct Hstep as (Hid & _ & _ & Hrows). subst id'. fold id in Hrows |- *.
  exists self'. split; [done|]. split; [exact Hrows|].
  unfold send_event. unfold_M. rewrite Hv.
  rewrite (to_bytes_ok id 8) by (subst id; simpl; lia). simpl.
  unfold to_bytes. destruct (Z.ltb_spec ts 0); [done|lia].
Qed.

Lemma X4_negative_timestamp_poisons_reply_witness :
  let self := ProtoDevice "kbd" Keyboard pull_db_empty in
  let c := Conn [] [] false in
  - 2 ^ 63 <= -5 < 0 /\
  Keyboard_value "press" = inr (VStr "press") /\
  max_rowid (events (cp_db self)) <= sqlite_sequence (cp_db self) /\
  0 <= sqlite_sequence (cp_db self) < 2 ^ 63 - 1 /\
  let id := sqlite_sequence (cp_db self) + 1 in
  exists self',
    CustomEventProtoDevice_event true self (-5) "press" = (inr id, self') /\
    events (cp_db self') = events (cp_db self) ++ [EventsRow id (-5) "press"] /\
    send_event (fun _ => inr [x00; x00; xac; x41]) Keyboard_value
               (EventsRow id (-5) "press") c =
      (inl (Exn OverflowError "can't convert negative int to unsigned"),
       Conn (inbox c) (sent c ++ be_digits 8 id) (closed c)).
Proof.
  intros self c.
  assert (Hts : - 2 ^ 63 <= -5 < 0) by lia.
  assert (Hv : Keyboard_value "press" = inr (VStr "press")) by reflexivity.
  assert (Hmax : max_rowid (events (cp_db self)) <= sqlite_sequence (cp_db self))
    by (simpl; lia).
  assert (Hseq : 0 <= sqlite_sequence (cp_db self) < 2 ^ 63 - 1) by (simpl; lia).
  repeat (split; [assumption|]).
  exact (X4_negative_timestamp_poisons_reply _ Keyboard_value self (-5) "press" _ c
           Hts Hv Hmax Hseq).
Defined.

(** ** More on webhook delivery *)

(** The loop ends with a success at the first attempt that goes through,
    provided the budget reaches that far. *)
Lemma send_loop_first_success (fuel : nat) (net : string -> nat -> post_result)
    (url : string) (ev : event_body) (start k : nat) (retries : Z) :
  (forall j, (j < k)%nat -> request_error (net url (start + j)%nat) <> None) ->
  request_error (net url (start + k)%nat) = None ->
  Z.of_nat k <= retries ->
  (k < fuel)%nat ->
  send_loop fuel net url ev start retries =
    Some (inr (ev_id ev), retry_trace url ev k).
Proof.
  revert fuel start retries.
  induction k as [|k IH]; intros fuel start retries Hfail Hok Hbudget Hfuel;
    (destruct fuel as [|fuel]; [lia|]); simpl.
  - rewrite Nat.add_0_r in Hok. by rewrite Hok.
  - pose proof (Hfail 0%nat ltac:(lia)) as H0. rewrite Nat.add_0_r in H0.
    destruct (request_error (net url start)) as [err|]; [|done].
    destruct (Z.eqb_spec retries 0) as [->|_]; [lia|].
    rewrite (IH fuel (S start) (retries - 1)); [done| | |lia|lia].
    + intros j Hj. specialize (Hfail (S j) ltac:(lia)).
      by rewrite <- Nat.add_succ_comm in Hfail.
    + by rewrite Nat.add_succ_comm.
Qed.

(** X5.  When the destination first answers well at attempt number [k]
    (counting from 0) and the budget is at least [k], [event] returns the
    event id after exactly [k + 1] posts with a 5-second sleep before each
    retry; the rest of the budget is not used. *)
Theorem X5_delivery_succeeds_at_first_good_attempt (fuel : nat)
    (net : string -> nat -> post_result) (self : WebhookDevice) (url : string)
    (ts : Z) (value : string) (retries : Z) (k : nat) :
  callback_url self = Some url ->
  (forall j, (j < k)%nat -> request_error (net url j) <> None) ->
  request_error (net url k) = None ->
  Z.of_nat k <= retries ->
  (k < fuel)%nat ->
  exists self' ev,
    WebhookDevice_event fuel net self ts value retries =
      Some (inr (ev_id ev), self', DbCursor (wh_name self) :: retry_trace url ev k) /\
    attempts (retry_trace url ev k) = S k /\
    ev_time ev = ts /\ ev_value ev = value.
Proof.
  intros Hurl Hfail Hok Hbudget Hfuel.
  unfold WebhookDevice_event, cursor. rewrite Hurl. simpl.
  set (ev := EventBody _ ts value).
  rewrite (send_loop_first_success fuel net url ev 0 k retries); try done.
  do 2 eexists. split; [reflexivity|]. split; [apply attempts_retry_trace|done].
Qed.

(** The destination answers 503 once, then 200; the budget is 3. *)
Lemma X5_delivery_succeeds_at_first_good_attempt_witness :
  let net := fun (_ : string) (k : nat) =>
               match k with
               | O => HttpResponse 503 "b'busy'"
               | _ => HttpResponse 200 "b'ok'"
               end in
  let self := PushDevice "door" End (Some "http://collector/cb"%string) webhook_db_empty in
  callback_url self = Some "http://collector/cb"%string /\
  (forall j, (j < 1)%nat -> request_error (net "http://collector/cb"%string j) <> None) /\
  request_error (net "http://collector/cb"%string 1%nat) = None /\
  Z.of_nat 1 <= 3 /\
  (1 < 5)%nat /\
  exists self' ev,
    WebhookDevice_event 5 net self 100 "press" 3 =
      Some (inr (ev_id ev), self',
            DbCursor (wh_name self) :: retry_trace "http://collector/cb" ev 1) /\
    attempts (retry_trace "http://collector/cb" ev 1) = 2%nat /\
    ev_time ev = 100 /\ ev_value ev = "press"%string.
Proof.
  intros net self.
  assert (H1 : callback_url self = Some "http://collector/cb"%string) by reflexivity.
  assert (H2 : forall j, (j < 1)%nat ->
                 request_error (net "http://collector/cb"%string j) <> None).
  { intros j Hj. assert (j = 0%nat) as -> by lia. discriminate. }
  assert (H3 : request_error (net "http://collector/cb"%string 1%nat) = None)
    by reflexivity.
  assert (H4 : Z.of_nat 1 <= 3) by lia.
  assert (H5 : (1 < 5)%nat) by lia.
  repeat (split; [assumption|]).
  exact (X5_delivery_succeeds_at_first_good_attempt 5 net self _ 100 "press" 3 1
           H1 H2 H3 H4 H5).
Defined.

Lemma send_loop_trace_shape (fuel : nat) (net : string -> nat -> post_result)
    (url : string) (ev : event_body) (k : nat) (retries : Z) (r : exn + Z)
    (tr : list io_event) :
  send_loop fuel net url ev k retries = Some (r, tr) ->
  Forall (fun e => e = Post url ev \/ e = Sleep 5) tr /\
  (forall id, r = inr id -> id = ev_id ev) /\
  (forall e, r = inl e -> exn_cls e = EventError).
Proof.
  revert k retries r tr. induction fuel as [|fuel IH]; intros k retries r tr; [done|].
  simpl. destruct (request_error (net url k)).
  - destruct (retries =? 0).
    + intros [= <- <-]. split; [repeat constructor; auto|].
      split; [done|]. by intros e [= <-].
    + destruct (send_loop fuel net url ev (S k) (retries - 1)) as [[r1 tr1]|] eqn:E;
        [|done].
      intros [= <- <-]. destruct (IH _ _ _ _ E) as (Htr & Hid & Herr).
      split; [|by split].
      constructor; [by left|]. constructor; [by right|]. exact Htr.
  - intros [= <- <-]. split; [repeat constructor; auto|].
    split; [by intros id [= <-]|done].
Qed.

(** X6.  Every attempt of one ingestion posts the same body, built once
    before the first attempt: the timestamp and the raw value as given (no
    coercion), and the id that [event] returns on success.  Nothing is said
    of the address of a post.  Apart from the posts the device opens its
    database cursor and sleeps 5 seconds at a time. *)
Theorem X6_every_attempt_posts_the_same_body (fuel : nat)
    (net : string -> nat -> post_result) (self self' : WebhookDevice)
    (ts : Z) (value : string) (retries : Z) (r : exn + Z) (tr : list io_event) :
  WebhookDevice_event fuel net self ts value retries = Some (r, self', tr) ->
  exists ev,
    ev_time ev = ts /\ ev_value ev = value /\
    (forall id, r = inr id -> id = ev_id ev) /\
    Forall (fun e => e = DbCursor (wh_name self)
                     \/ (exists url, e = Post url ev) \/ e = Sleep 5) tr.
Proof.
  unfold WebhookDevice_event, cursor.
  destruct (callback_url self) as [url|]; simpl.
  - set (ev := EventBody _ ts value).
    destruct (send_loop fuel net url ev 0 retries) as [[r0 tr0]|] eqn:E; [|done].
    intros [= <- <- <-]. exists ev.
    destruct (send_loop_trace_shape _ _ _ _ _ _ _ _ E) as (Htr & Hid & _).
    repeat split; [done|].
    constructor; [by left|].
    eapply Forall_impl; [exact Htr|]. simpl. intros e [-> | ->]; eauto.
  - intros [= <- <- <-]. exists (EventBody 1 ts value). by repeat split.
Qed.

Lemma X6_every_attempt_posts_the_same_body_witness :
  let net := fun (_ : string) (_ : nat) => HttpResponse 503 "b'busy'" in
  let self := PushDevice "door" End (Some "http://collector/cb"%string) webhook_db_empty in
  exists r self' tr,
    WebhookDevice_event 3 net self 100 "ajar" 1 = Some (r, self', tr) /\
    attempts tr = 2%nat /\
    exists ev,
      ev_time ev = 100 /\ ev_value ev = "ajar"%string /\
      (forall id, r = inr id -> id = ev_id ev) /\
      Forall (fun e => e = DbCursor (wh_name self)
                       \/ (exists url, e = Post url ev) \/ e = Sleep 5) tr.
Proof.
  intros net self.
  do 3 eexists. split; [reflexivity|]. split; [reflexivity|].
  exact (X6_every_attempt_posts_the_same_body 3 net self _ 100 "ajar" 1 _ _ eq_refl).
Defined.

(** ** The push device over time *)

Lemma webhook_run_coherent (urlparse : string -> exn + (string * string))
    (ops : list webhook_op) (self d : WebhookDevice) :
  callback_url self = head (subscription (wh_db self)) ->
  webhook_run urlparse ops self = Some d ->
  wh_name d = wh_name self /\ wh_kind d = wh_kind self /\
  callback_url d = head (subscription (wh_db d)).
Proof.
  revert self. induction ops as [|op ops IH]; intros self Hco; simpl.
  - by intros [= <-].
  - destruct op as [callback|fuel net ts value retries].
    + intros Hrun. apply IH in Hrun.
      * destruct Hrun as (Hn & Hk & Hc). split; [|split]; [| |done].
        -- rewrite Hn. unfold subscribe. destruct callback as [cb|]; [|done].
           by destruct (check_callback urlparse cb).
        -- rewrite Hk. unfold subscribe. destruct callback as [cb|]; [|done].
           by destruct (check_callback urlparse cb).
      * unfold subscribe. destruct callback as [cb|]; [|done].
        by destruct (check_callback urlparse cb).
    + destruct (WebhookDevice_event fuel net self ts value retries)
        as [[[r self'] tr]|] eqn:Hev; [|done].
      intros Hrun. apply IH in Hrun.
      * assert (wh_name self' = wh_name self /\ wh_kind self' = wh_kind self) as [Hn Hk].
        { revert Hev. unfold WebhookDevice_event, cursor.
          destruct (callback_url self); simpl; [|by intros [= _ <- _]].
          destruct (send_loop _ _ _ _ _ _) as [[? ?]|]; [|done].
          by intros [= _ <- _]. }
        destruct Hrun as (Hn' & Hk' & Hc). by rewrite Hn', Hk', Hn, Hk.
      * revert Hev. unfold WebhookDevice_event, cursor.
        destruct (callback_url self) eqn:Hcb; simpl;
          [|intros [= _ <- _]; congruence].
        destruct (send_loop _ _ _ _ _ _) as [[? ?]|]; [|done].
        intros [= _ <- _]. simpl. congruence.
Qed.

(** X7.  A push device survives a restart: after any run of subscribe calls
    and ingestions, constructing the device again on the database it left
    behind gives back the device as it was, its callback included. *)
Theorem X7_webhook_restart_restores_device
    (urlparse : string -> exn + (string * string)) (name : string)
    (kind : webhook_sensor) (on_disk : option webhook_db) (ops : list webhook_op)
    (d : WebhookDevice) :
  webhook_run urlparse ops (WebhookDevice_init name kind on_disk) = Some d ->
  WebhookDevice_init name kind (Some (wh_db d)) = d.
Proof.
  intros Hrun. apply webhook_run_coherent in Hrun; [|done].
  destruct Hrun as (Hn & Hk & Hc). destruct d as [n k cb db]. simpl in *.
  unfold WebhookDevice_init. simpl. by rewrite Hn, Hk, Hc.
Qed.

Lemma X7_webhook_restart_restores_device_witness :
  let ops := [DoSubscribe (Some "http://old.example/cb"%string);
              DoEvent 2 (fun _ _ => HttpResponse 200 "b'ok'") 100 "press" 0;
              DoSubscribe (Some "http://new.example/cb"%string)] in
  exists d,
    webhook_run urlparse_examples ops (WebhookDevice_init "door" End None) = Some d /\
    callback_url d = Some "http://new.example/cb"%string /\
    WebhookDevice_init "door" End (Some (wh_db d)) = d.
Proof.
  intros ops. eexists. split; [reflexivity|]. split; [reflexivity|].
  exact (X7_webhook_restart_restores_device urlparse_examples "door" End None ops _
           eq_refl).
Defined.

(** X8.  When the [event_id] table does hold a row with value [n], and
    [n + 1] is still a 64-bit signed integer that SQLite can store, an
    ingestion of a subscribed device takes the id [n + 1] and writes it to
    every row of the table before the first post, so the id is used up
    whether or not the delivery succeeds. *)
Theorem X8_counter_advances_when_seeded (fuel : nat)
    (net : string -> nat -> post_result) (self self' : WebhookDevice)
    (url : string) (ts : Z) (value : string) (retries : Z) (n : Z)
    (rows : list Z) (r : exn + Z) (tr : list io_event) :
  callback_url self = Some url ->
  event_id (wh_db self) = n :: rows ->
  - 2 ^ 63 <= n < 2 ^ 63 - 1 ->
  WebhookDevice_event fuel net self ts value retries = Some (r, self', tr) ->
  event_id (wh_db self') = replicate (S (length rows)) (n + 1) /\
  (forall id, r = inr id -> id = n + 1).
Proof.
  intros Hurl Hrows _. unfold WebhookDevice_event, cursor, select_event_id, update_event_id.
  rewrite Hurl, Hrows. simpl.
  destruct (send_loop fuel net url _ 0 retries) as [[r0 tr0]|] eqn:E; [|done].
  intros [= <- <- <-]. simpl. split.
  - f_equal. clear. induction rows as [|x rows IH]; simpl; [done|]. by rewrite IH.
  - intros id Hid. by apply (send_loop_trace_shape _ _ _ _ _ _ _ _ E) in Hid.
Qed.

Lemma X8_counter_advances_when_seeded_witness :
  let net := fun (_ : string) (_ : nat) => HttpResponse 503 "b'busy'" in
  let self := PushDevice "door" End (Some "http://collector/cb"%string)
                         (WebhookDb ["http://collector/cb"%string] [7]) in
  callback_url self = Some "http://collector/cb"%string /\
  event_id (wh_db self) = 7 :: [] /\
  - 2 ^ 63 <= 7 < 2 ^ 63 - 1 /\
  exists r self' tr,
    WebhookDevice_event 1 net self 100 "press" 0 = Some (r, self', tr) /\
    event_id (wh_db self') = replicate (S (length (@nil Z))) (7 + 1) /\
    (forall id, r = inr id -> id = 7 + 1).
Proof.
  intros net self.
  assert (H1 : callback_url self = Some "http://collector/cb"%string) by reflexivity.
  assert (H2 : event_id (wh_db self) = 7 :: []) by reflexivity.
  assert (H3 : - 2 ^ 63 <= 7 < 2 ^ 63 - 1) by (vm_compute; split; congruence).
  split; [exact H1|]. split; [exact H2|]. split; [exact H3|].
  do 3 eexists. split; [reflexivity|].
  exact (X8_counter_advances_when_seeded 1 net self _ _ 100 "press" 0 7 [] _ _
           H1 H2 H3 eq_refl).
Defined.

(** X9.  [subscribe] answers 200 exactly when a callback is given, parses
    without an exception and has both a scheme and a host; in every other
    case (no callback parameter, a parse error, a missing part) it answers
    400 and leaves the device as it was. *)
Theorem X9_subscribe_accepts_exactly_full_urls
    (urlparse : string -> exn + (string * string)) (callback : option string)
    (self : WebhookDevice) :
  let resp := fst (subscribe urlparse callback self) in
  let self' := snd (subscribe urlparse callback self) in
  (status resp = 200 <->
   exists cb scheme netloc,
     callback = Some cb /\ urlparse cb = inr (scheme, netloc) /\
     scheme <> EmptyString /\ netloc <> EmptyString) /\
  (status resp <> 200 -> status resp = 400 /\ self' = self).
Proof.
  unfold subscribe, check_callback. destruct callback as [cb|]; simpl.
  - destruct (urlparse cb) as [e|[scheme netloc]] eqn:Hparse; simpl.
    + split; [|done]. split; [done|].
      intros (? & ? & ? & [= <-] & Hp & _). congruence.
    + case_bool_decide as Hs; simpl.
      { split; [|done]. split; [done|].
        intros (? & ? & ? & [= <-] & Hp & Hne & _). congruence. }
      case_bool_decide as Hn; simpl.
      { split; [|done]. split; [done|].
        intros (? & ? & ? & [= <-] & Hp & _ & Hne). congruence. }
      split; [|done]. split; [|done]. intros _. by exists cb, scheme, netloc.
  - split; [|done]. split; [done|]. by intros (? & ? & ? & [=] & _).
Qed.

(** ** Termination of a delivery *)

Lemma send_loop_terminates (fuel : nat) (net : string -> nat -> post_result)
    (url : string) (ev : event_body) (k : nat) (retries : Z) :
  0 <= retries ->
  (Z.to_nat retries < fuel)%nat ->
  exists r tr,
    send_loop fuel net url ev k retries = Some (r, tr) /\
    (attempts tr <= S (Z.to_nat retries))%nat.
Proof.
  revert k retries. induction fuel as [|fuel IH]; intros k retries Hpos Hfuel; [lia|].
  simpl. destruct (request_error (net url k)) as [err|].
  - destruct (Z.eqb_spec retries 0) as [->|Hne].
    + do 2 eexists. split; [reflexivity|]. unfold attempts. simpl. lia.
    + destruct (IH (S k) (retries - 1) ltac:(lia) ltac:(lia)) as (r & tr & Hloop & Hatt).
      rewrite Hloop. do 2 eexists. split; [reflexivity|].
      unfold attempts in *. simpl. lia.
  - do 2 eexists. split; [reflexivity|]. unfold attempts. simpl. lia.
Qed.

Lemma event_terminates (fuel : nat) (net : string -> nat -> post_result)
    (self : WebhookDevice) (ts : Z) (value : string) (retries : Z) :
  0 <= retries ->
  (Z.to_nat retries < fuel)%nat ->
  exists r self' tr,
    WebhookDevice_event fuel net self ts value retries = Some (r, self', tr) /\
    (attempts tr <= S (Z.to_nat retries))%nat.
Proof.
  intros Hpos Hfuel. unfold WebhookDevice_event, cursor.
  destruct (callback_url self) as [url|]; simpl.
  - set (ev := EventBody _ ts value).
    destruct (send_loop_terminates fuel net url ev 0 retries Hpos Hfuel)
      as (r & tr & Hloop & Hatt).
    rewrite Hloop. do 3 eexists. split; [reflexivity|]. exact Hatt.
  - do 3 eexists. split; [reflexivity|]. unfold attempts. simpl. lia.
Qed.

(** X10.  A retry count that [pos_int] accepts is never negative (0 is
    accepted), so with it the retry loop is bounded: as long as every POST
    returns, with a response or with a [RequestException], whichever of the
    two each attempt gives, the ingestion ends after at most that many
    retries plus one posts.  A POST that never returns (none carries a
    timeout) is not among the outcomes of [post_result], and of it nothing
    is claimed. *)
Theorem X10_cli_retries_bound_the_attempts (val : string) (retries : Z)
    (net : string -> nat -> post_result) (self : WebhookDevice) (ts : Z)
    (value : string) :
  pos_int val = inr retries ->
  0 <= retries /\
  exists r self' tr,
    WebhookDevice_event (S (Z.to_nat retries)) net self ts value retries =
      Some (r, self', tr) /\
    (attempts tr <= S (Z.to_nat retries))%nat.
Proof.
  unfold pos_int. destruct (py_int val) as [e|n]; [done|].
  destruct (Z.ltb_spec n 0); [done|]. intros [= ->]. split; [done|].
  apply event_terminates; lia.
Qed.

Lemma X10_cli_retries_bound_the_attempts_witness :
  let net := fun (_ : string) (_ : nat) => RequestException "connection refused" in
  let self := PushDevice "door" End (Some "http://collector/cb"%string) webhook_db_empty in
  pos_int "0" = inr 0 /\
  0 <= 0 /\
  exists r self' tr,
    WebhookDevice_event (S (Z.to_nat 0)) net self 100 "press" 0 = Some (r, self', tr) /\
    (attempts tr <= S (Z.to_nat 0))%nat.
Proof.
  intros net self.
  assert (H : pos_int "0" = inr 0) by reflexivity.
  split; [exact H|].
  exact (X10_cli_retries_bound_the_attempts "0" 0 net self 100 "press" H).
Defined.

(** ** More on the dispatcher *)

Lemma parse_request_names (repr : json -> string) (data : json)
    (dev_name value : string) (ts : Z) (kwargs : option Z) :
  parse_request repr data = inr (dev_name, ts, value, kwargs) ->
  names_device data dev_name.
Proof.
  unfold parse_request, names_device. intros H.
  destruct data as [| | | | | |items]; try discriminate H.
  exists items. split; [done|].
  destruct (resolve_column items "dev_name") as [[| | | |s| |]|];
    try discriminate H;
    repeat (simpl in H;
            match type of H with
            | match ?x with _ => _ end = _ => destruct x; try discriminate H
            end);
    by injection H as <-.
Qed.

Lemma device_event_exception (w : env) (device device' : Device) (ts : Z)
    (value : string) (retries : Z) (e : exn) (tr : list io_event) :
  Device_event w device ts value retries = Some (inl e, device', tr) ->
  is_Exception e = true /\ is_class ValueError e = false.
Proof.
  unfold Device_event. destruct device as [d|d].
  - unfold WebhookDevice_event, cursor.
    destruct (callback_url d) as [url|]; simpl; [|by intros [= <- _ _]].
    destruct (send_loop _ _ _ _ _ _) as [[r tr0]|] eqn:E; [|done].
    intros [= -> _ _].
    destruct (send_loop_trace_shape _ _ _ _ _ _ _ _ E) as (_ & _ & Herr).
    specialize (Herr e eq_refl). destruct e as [cls msg]. simpl in Herr. by subst cls.
  - unfold CustomEventProtoDevice_event, cursor, insert_event.
    destruct (int64_ok ts); simpl; [|by intros [= <- _ _]].
    destruct (env_io_ok w); simpl; [|by intros [= <- _ _]].
    destruct (2 ^ 63 - 1 <=? _); [by intros [= <- _ _]|done].
Qed.

Lemma serve_reply_or_error (repr : json -> string) (w : env)
    (devices devices' : gmap string Device) (dgram : exn + json)
    (r : exn + json) (tr : list io_event) :
  (forall e, dgram = inl e -> is_Exception e = true) ->
  EventSocketServer_serve repr w devices dgram = Some (r, devices', tr) ->
  (exists id, r = inr (reply_id id)) \/ (exists message, r = inr (reply_error message)).
Proof.
  intros Hdgram. unfold EventSocketServer_serve, serve_body.
  destruct dgram as [e|data].
  - specialize (Hdgram e eq_refl). intros [= <- _ _]. right.
    destruct e as [[] msg]; simpl in *; try discriminate; by eexists.
  - destruct (parse_request repr data) as [e|[[[dev_name ts] value] kwargs]] eqn:Hparse.
    + apply parse_request_raises in Hparse. destruct e as [cls msg]. simpl in Hparse.
      subst cls. intros [= <- _ _]. right. by eexists.
    + destruct (devices !! dev_name) as [device|]; [|intros [= <- _ _]; right; by eexists].
      destruct (Device_event w device ts value (default 0 kwargs))
        as [[[[e|id] device'] tr0]|] eqn:Hev; [| |done].
      * destruct (device_event_exception _ _ _ _ _ _ _ _ Hev) as [Hexc Hval].
        destruct e as [[] msg]; simpl in *; try discriminate;
          intros [= <- _ _]; right; by eexists.
      * intros [= <- _ _]. left. by eexists.
Qed.

(** X11.  Whatever datagram arrives, and whatever the named device does,
    [serve] answers with exactly one of [{id: <int>}] and [{error: <str>}]
    whenever it ends: no exception of the [Exception] family leaves it for
    the listener loop. *)
Theorem X11_dispatcher_always_replies (repr : json -> string) (w : env)
    (devices devices' : gmap string Device) (dgram : exn + json)
    (r : exn + json) (tr : list io_event) :
  (forall e, dgram = inl e -> is_Exception e = true) ->
  EventSocketServer_serve repr w devices dgram = Some (r, devices', tr) ->
  (exists id, r = inr (reply_id id)) \/ (exists message, r = inr (reply_error message)).
Proof.
  intros Hdgram Hserve.
  destruct (serve_reply_or_error repr w devices devices' dgram r tr Hdgram Hserve)
    as [[id ->]|[message ->]]; [left|right]; by eexists.
Qed.

Lemma X11_dispatcher_always_replies_witness :
  let repr := fun _ : json => "[1, 2]"%string in
  let w := Env 1 (fun _ _ => HttpResponse 200 "b'ok'") true in
  (forall e, @inr exn json (JList [JInt 1; JInt 2]) = inl e -> is_Exception e = true) /\
  exists r devices' tr,
    EventSocketServer_serve repr w ∅ (inr (JList [JInt 1; JInt 2])) =
      Some (r, devices', tr) /\
    ((exists id, r = inr (reply_id id)) \/
     (exists message, r = inr (reply_error message))).
Proof.
  intros repr w.
  assert (H : forall e, @inr exn json (JList [JInt 1; JInt 2]) = inl e ->
                        is_Exception e = true) by (intros e [=]).
  split; [exact H|].
  do 3 eexists. split; [reflexivity|].
  exact (X11_dispatcher_always_replies repr w ∅ _ _ _ _ H eq_refl).
Defined.

(** X12.  A request that fails one of the field checks (not a dict, a key
    missing, a field of the wrong type) is answered with "wrong data
    received: " followed by the text of the failed check; the device table
    is unchanged and no device is called. *)
Theorem X12_malformed_request_is_rejected (repr : json -> string) (w : env)
    (devices : gmap string Device) (data : json) (e : exn) :
  parse_request repr data = inl e ->
  EventSocketServer_serve repr w devices (inr data) =
    Some (inr (reply_error ("wrong data received: " +:+ exn_msg e)), devices, []).
Proof.
  intros Hparse. unfold EventSocketServer_serve, serve_body. rewrite Hparse.
  apply parse_request_raises in Hparse. destruct e as [cls msg]. simpl in *.
  by subst cls.
Qed.

(** A request without [ts]. *)
Lemma X12_malformed_request_is_rejected_witness :
  let repr := fun _ : json => "{...}"%string in
  let w := Env 1 (fun _ _ => HttpResponse 200 "b'ok'") true in
  let data := JDict [("dev_name"%string, JStr "thermo"); ("value"%string, JStr "215")] in
  parse_request repr data = inl (Exn AssertionError "ts not set: {...}") /\
  EventSocketServer_serve repr w ∅ (inr data) =
    Some (inr (reply_error ("wrong data received: "
                              +:+ exn_msg (Exn AssertionError "ts not set: {...}"))),
          ∅, []).
Proof.
  intros repr w data.
  assert (H : parse_request repr data = inl (Exn AssertionError "ts not set: {...}"))
    by reflexivity.
  split; [exact H|].
  exact (X12_malformed_request_is_rejected repr w ∅ data _ H).
Defined.

(** X13.  A request changes at most the device it names: every other entry
    of the device table is the same afterwards, and no device is added or
    removed. *)
Theorem X13_request_touches_only_named_device (repr : json -> string) (w : env)
    (devices devices' : gmap string Device) (data : json) (r : exn + json)
    (tr : list io_event) :
  EventSocketServer_serve repr w devices (inr data) = Some (r, devices', tr) ->
  (forall other, ~ names_device data other -> devices' !! other = devices !! other) /\
  (forall name, is_Some (devices' !! name) <-> is_Some (devices !! name)).
Proof.
  unfold EventSocketServer_serve, serve_body.
  destruct (parse_request repr data) as [e|[[[dev_name ts] value] kwargs]] eqn:Hparse;
    [by intros [= _ <- _]|].
  apply parse_request_names in Hparse.
  destruct (devices !! dev_name) as [device|] eqn:Hdev; [|by intros [= _ <- _]].
  destruct (Device_event w device ts value (default 0 kwargs))
    as [[[r0 device'] tr0]|]; [|done].
  assert (Hframe :
    (forall other, ~ names_device data other ->
       <[dev_name := device']> devices !! other = devices !! other) /\
    (forall name, is_Some (<[dev_name := device']> devices !! name)
                  <-> is_Some (devices !! name))).
  { split.
    - intros other Hother. apply lookup_insert_ne. by intros ->.
    - intros name. destruct (decide (dev_name = name)) as [<-|Hne].
      + rewrite lookup_insert_eq, Hdev. split; eauto.
      + by rewrite lookup_insert_ne. }
  destruct r0 as [err|id]; [|by intros [= _ <- _]].
  destruct (is_class ValueError err); [by intros [= _ <- _]|].
  destruct (is_class EventError err); by intros [= _ <- _].
Qed.

Lemma X13_request_touches_only_named_device_witness :
  let repr := fun _ : json => "{...}"%string in
  let w := Env 1 (fun _ _ => HttpResponse 200 "b'ok'") true in
  let devices : gmap string Device :=
    <["thermo"%string :=
        CustomEventProto (CustomEventProtoDevice_init "thermo" Temperature None)]>
      {[ "kbd"%string :=
           CustomEventProto (CustomEventProtoDevice_init "kbd" Keyboard None) ]} in
  exists r devices' tr,
    EventSocketServer_serve repr w devices (inr (request "thermo" 100 "215")) =
      Some (r, devices', tr) /\
    (forall other, ~ names_device (request "thermo" 100 "215") other ->
                   devices' !! other = devices !! other) /\
    (forall name, is_Some (devices' !! name) <-> is_Some (devices !! name)).
Proof.
  intros repr w devices. do 3 eexists. split; [reflexivity|].
  exact (X13_request_touches_only_named_device repr w devices _
           (request "thermo" 100 "215") _ _ eq_refl).
Defined.

Lemma parse_request_client_data (repr : json -> string) (dev_name value : string)
    (ts : Z) (retries : option Z) :
  parse_request repr (client_data dev_name ts value retries) =
    inr (dev_name, ts, value, retries).
Proof. by destruct retries. Qed.

(** X14.  The request that [event.py] builds always passes the dispatcher's
    field checks and is read back field by field; the timestamp it carries
    is the one given on the command line unless that is absent or 0, in
    which case it is the clock. *)
Theorem X14_cli_request_passes_validation (repr : json -> string)
    (ts_arg retries_arg : option Z) (device value : string) (now : Z) :
  parse_request repr (event_py_request ts_arg retries_arg device value now) =
    inr (device,
         match ts_arg with
         | Some 0 | None => now
         | Some ts => ts
         end,
         value, retries_arg).
Proof.
  unfold event_py_request. rewrite parse_request_client_data.
  destruct ts_arg as [[| |]|]; reflexivity.
Qed.

(** X15.  A write the storage refuses, or a timestamp outside the signed
    64-bit range, is answered with "Internal error: ..."; the pull device's
    table and the device table are as before. *)
Theorem X15_storage_failure_is_internal_error (repr : json -> string) (w : env)
    (devices : gmap string Device) (data : json) (dev_name value : string)
    (ts : Z) (kwargs : option Z) (d : CustomEventProtoDevice) :
  parse_request repr data = inr (dev_name, ts, value, kwargs) ->
  devices !! dev_name = Some (CustomEventProto d) ->
  int64_ok ts = false \/ env_io_ok w = false ->
  exists message,
    EventSocketServer_serve repr w devices (inr data) =
      Some (inr (reply_error ("Internal error: " +:+ message)), devices,
            [DbCursor (cp_name d)]).
Proof.
  intros Hparse Hdev Hfail. unfold EventSocketServer_serve, serve_body.
  rewrite Hparse, Hdev. unfold Device_event, CustomEventProtoDevice_event, cursor,
    insert_event.
  assert (Hid : <[dev_name := CustomEventProto
                     (ProtoDevice (cp_name d) (cp_kind d) (cp_db d))]> devices = devices).
  { apply insert_id. rewrite Hdev. by destruct d. }
  destruct (int64_ok ts); simpl.
  - destruct Hfail as [? | ->]; [done|]. simpl. rewrite Hid. by eexists.
  - rewrite Hid. by eexists.
Qed.

Lemma X15_storage_failure_is_internal_error_witness :
  let repr := fun _ : json => "{...}"%string in
  let w := Env 1 (fun _ _ => HttpResponse 200 "b'ok'") true in
  let d := CustomEventProtoDevice_init "thermo" Temperature None in
  let devices : gmap string Device := {[ "thermo"%string := CustomEventProto d ]} in
  parse_request repr (request "thermo" (2 ^ 63) "215") =
    inr ("thermo"%string, 2 ^ 63, "215"%string, None) /\
  devices !! "thermo"%string = Some (CustomEventProto d) /\
  (int64_ok (2 ^ 63) = false \/ env_io_ok w = false) /\
  exists message,
    EventSocketServer_serve repr w devices (inr (request "thermo" (2 ^ 63) "215")) =
      Some (inr (reply_error ("Internal error: " +:+ message)), devices,
            [DbCursor (cp_name d)]).
Proof.
  intros repr w d devices.
  assert (H1 : parse_request repr (request "thermo" (2 ^ 63) "215") =
               inr ("thermo"%string, 2 ^ 63, "215"%string, None)) by reflexivity.
  assert (H2 : devices !! "thermo"%string = Some (CustomEventProto d)) by reflexivity.
  assert (H3 : int64_ok (2 ^ 63) = false \/ env_io_ok w = false) by (left; reflexivity).
  repeat (split; [assumption|]).
  exact (X15_storage_failure_is_internal_error repr w devices _ _ _ _ _ d H1 H2 H3).
Defined.

(** X16.  The dispatcher passes on a negative [retries] as it is: against a
    destination that keeps failing, the request never gets its reply, however
    long the loop is left to run. *)
Theorem X16_negative_retries_never_reply (repr : json -> string) (w : env)
    (devices : gmap string Device) (dev_name value url : string) (ts retries : Z)
    (d : WebhookDevice) :
  devices !! dev_name = Some (Webhook d) ->
  callback_url d = Some url ->
  retries < 0 ->
  (forall k, request_error (env_net w url k) <> None) ->
  EventSocketServer_serve repr w devices
    (inr (client_data dev_name ts value (Some retries))) = None.
Proof.
  intros Hdev Hurl Hneg Hfail. unfold EventSocketServer_serve, serve_body.
  rewrite parse_request_client_data, Hdev.
  unfold Device_event, WebhookDevice_event, cursor. rewrite Hurl. simpl.
  by rewrite send_loop_negative_budget.
Qed.

Lemma X16_negative_retries_never_reply_witness :
  let repr := fun _ : json => "{...}"%string in
  let w := Env 1000 (fun _ _ => HttpResponse 503 "b'busy'") true in
  let d := PushDevice "door" End (Some "http://collector/cb"%string) webhook_db_empty in
  let devices : gmap string Device := {[ "door"%string := Webhook d ]} in
  devices !! "door"%string = Some (Webhook d) /\
  callback_url d = Some "http://collector/cb"%string /\
  -1 < 0 /\
  (forall k, request_error (env_net w "http://collector/cb"%string k) <> None) /\
  EventSocketServer_serve repr w devices
    (inr (client_data "door" 100 "press" (Some (-1)))) = None.
Proof.
  intros repr w d devices.
  assert (H1 : devices !! "door"%string = Some (Webhook d)) by reflexivity.
  assert (H2 : callback_url d = Some "http://collector/cb"%string) by reflexivity.
  assert (H3 : -1 < 0) by lia.
  assert (H4 : forall k, request_error (env_net w "http://collector/cb"%string k) <> None)
    by (intros k; discriminate).
  repeat (split; [assumption|]).
  exact (X16_negative_retries_never_reply repr w devices "door" "press" _ 100 (-1) d
           H1 H2 H3 H4).
Defined.

(** X17.  When the delivery gives up, the dispatcher answers with the reason
    of the last failed attempt as [{error: ...}]; when the device has no
    subscription it answers "No subscriptions" and the device does nothing. *)
Theorem X17_delivery_failure_reply (repr : json -> string) (w : env)
    (devices : gmap string Device) (dev_name value : string) (ts retries : Z)
    (d : WebhookDevice) :
  devices !! dev_name = Some (Webhook d) ->
  0 <= retries ->
  (Z.to_nat retries < env_fuel w)%nat ->
  (forall url k, request_error (env_net w url k) <> None) ->
  exists message devices' tr,
    EventSocketServer_serve repr w devices
      (inr (client_data dev_name ts value (Some retries))) =
      Some (inr (reply_error message), devices', tr) /\
    match callback_url d with
    | Some url =>
        request_error (env_net w url (Z.to_nat retries)) = Some message /\
        attempts tr = S (Z.to_nat retries)
    | None => message = "No subscriptions"%string /\ devices' = devices /\ tr = []
    end.
Proof.
  intros Hdev Hpos Hfuel Hfail. unfold EventSocketServer_serve, serve_body.
  rewrite parse_request_client_data, Hdev.
  unfold Device_event, WebhookDevice_event, cursor.
  destruct (callback_url d) as [url|] eqn:Hurl; simpl.
  - set (ev := EventBody _ ts value).
    destruct (send_loop_exhausts (env_fuel w) (env_net w) url ev 0 retries Hpos
                (Hfail url) Hfuel) as (reason & Hreason & Hloop).
    rewrite Hloop. simpl. do 3 eexists. split; [reflexivity|].
    split; [exact Hreason|].
    unfold attempts. simpl. apply (attempts_retry_trace url ev).
  - do 3 eexists. split; [reflexivity|]. repeat split.
    by apply insert_id.
Qed.

Lemma X17_delivery_failure_reply_witness :
  let repr := fun _ : json => "{...}"%string in
  let w := Env 3 (fun _ _ => HttpResponse 503 "b'busy'") true in
  let d := PushDevice "door" End (Some "http://collector/cb"%string) webhook_db_empty in
  let devices : gmap string Device := {[ "door"%string := Webhook d ]} in
  devices !! "door"%string = Some (Webhook d) /\
  0 <= 2 /\
  (Z.to_nat 2 < env_fuel w)%nat /\
  (forall url k, request_error (env_net w url k) <> None) /\
  exists message devices' tr,
    EventSocketServer_serve repr w devices
      (inr (client_data "door" 100 "press" (Some 2))) =
      Some (inr (reply_error message), devices', tr) /\
    match callback_url d with
    | Some url =>
        request_error (env_net w url (Z.to_nat 2)) = Some message /\
        attempts tr = S (Z.to_nat 2)
    | None => message = "No subscriptions"%string /\ devices' = devices /\ tr = []
    end.
Proof.
  intros repr w d devices.
  assert (H1 : devices !! "door"%string = Some (Webhook d)) by reflexivity.
  assert (H2 : 0 <= 2) by lia.
  assert (H3 : (Z.to_nat 2 < env_fuel w)%nat) by (simpl; lia).
  assert (H4 : forall url k, request_error (env_net w url k) <> None)
    by (intros url k; discriminate).
  repeat (split; [assumption|]).
  exact (X17_delivery_failure_reply repr w devices "door" "press" 100 2 d H1 H2 H3 H4).
Defined.

(** One accepted injection into a pull device, seen from the dispatcher. *)
Lemma serve_proto_insert (repr : json -> string) (w : env)
    (devices : gmap string Device) (dev_name value : string) (ts : Z)
    (d : CustomEventProtoDevice) :
  devices !! dev_name = Some (CustomEventProto d) ->
  env_io_ok w = true ->
  int64_ok ts = true ->
  Z.max (sqlite_sequence (cp_db d)) (max_rowid (events (cp_db d))) < 2 ^ 63 - 1 ->
  let id := Z.max (sqlite_sequence (cp_db d)) (max_rowid (events (cp_db d))) + 1 in
  EventSocketServer_serve repr w devices (inr (request dev_name ts value)) =
    Some (inr (reply_id id),
          <[dev_name := CustomEventProto
                          (ProtoDevice (cp_name d) (cp_kind d)
                             (PullDb (events (cp_db d) ++ [EventsRow id ts value]) id))]>
            devices,
          [DbCursor (cp_name d)]).
Proof.
  intros Hdev Hio Hts Hroom id. unfold EventSocketServer_serve, serve_body.
  change (request dev_name ts value) with (client_data dev_name ts value None).
  rewrite parse_request_client_data, Hdev.
  unfold Device_event. rewrite Hio.
  unfold CustomEventProtoDevice_event, cursor, insert_event. rewrite Hts.
  cbn [negb].
  destruct (Z.leb_spec (2 ^ 63 - 1)
              (Z.max (sqlite_sequence (cp_db d)) (max_rowid (events (cp_db d)))));
    [lia|reflexivity].
Qed.

(** X18.  The dispatcher serves one request at a time: a run of injections
    into one pull device whose store has a row id left for each of them
    (the sequence stays within 2^63 - 1, beyond which the insert fails and
    the reply is an internal error) is answered, in arrival order, with
    consecutive ids continuing the device's sequence, and the rows are
    appended in that order with the timestamps and raw values as sent. *)
Theorem X18_dispatcher_numbers_in_arrival_order (repr : json -> string) (w : env)
    (reqs : list (Z * string)) (devices : gmap string Device) (dev_name : string)
    (d : CustomEventProtoDevice) :
  devices !! dev_name = Some (CustomEventProto d) ->
  env_io_ok w = true ->
  Forall (fun q => int64_ok (fst q) = true) reqs ->
  max_rowid (events (cp_db d)) <= sqlite_sequence (cp_db d) ->
  0 <= sqlite_sequence (cp_db d) ->
  sqlite_sequence (cp_db d) + Z.of_nat (length reqs) <= 2 ^ 63 - 1 ->
  exists devices' d' tr,
    EventSocketServer_loop repr devices
      (List.map (fun q => (w, inr (request dev_name (fst q) (snd q)))) reqs) =
      Some (List.map reply_id
              (seqZ (sqlite_sequence (cp_db d) + 1) (Z.of_nat (length reqs))),
            None, devices', tr) /\
    devices' !! dev_name = Some (CustomEventProto d') /\
    List.map (fun r => (row_ts r, row_value r)) (events (cp_db d')) =
      List.map (fun r => (row_ts r, row_value r)) (events (cp_db d)) ++ reqs.
Proof.
  revert devices d. induction reqs as [|[ts value] reqs IH];
    intros devices d Hdev Hio Hall Hmax Hpos Hroom.
  - exists devices, d, []. simpl. by rewrite app_nil_r.
  - inversion_clear Hall as [|? ? Hts Hall']. simpl in Hts.
    cbn [length] in Hroom. rewrite Nat2Z.inj_succ in Hroom.
    cbn [List.map EventSocketServer_loop fst snd length].
    rewrite (serve_proto_insert repr w devices dev_name value ts d Hdev Hio Hts)
      by lia.
    replace (Z.max (sqlite_sequence (cp_db d)) (max_rowid (events (cp_db d))))
      with (sqlite_sequence (cp_db d)) by lia.
    set (id := sqlite_sequence (cp_db d) + 1).
    set (d1 := ProtoDevice _ _ _).
    destruct (IH (<[dev_name := CustomEventProto d1]> devices) d1)
      as (devices' & d' & tr & Hloop & Hdev' & Hrows'); try done.
    { apply lookup_insert_eq. }
    { subst d1. simpl. rewrite max_rowid_snoc. simpl. lia. }
    { subst d1 id. simpl. lia. }
    { subst d1 id. cbn [cp_db sqlite_sequence]. lia. }
    rewrite Hloop. exists devices', d'. eexists. split; [|split; [exact Hdev'|]].
    + rewrite Nat2Z.inj_succ, (seqZ_cons id) by lia. subst d1 id.
      cbn [List.map cp_db sqlite_sequence]. repeat f_equal; lia.
    + rewrite Hrows'. subst d1. simpl. rewrite List.map_app. simpl.
      by rewrite <- app_assoc.
Qed.

Lemma X18_dispatcher_numbers_in_arrival_order_witness :
  let repr := fun _ : json => "{...}"%string in
  let w := Env 1 (fun _ _ => HttpResponse 200 "b'ok'") true in
  let d := CustomEventProtoDevice_init "thermo" Temperature None in
  let devices : gmap string Device := {[ "thermo"%string := CustomEventProto d ]} in
  let reqs := [(100, "215"%string); (90, "9999"%string)] in
  devices !! "thermo"%string = Some (CustomEventProto d) /\
  env_io_ok w = true /\
  Forall (fun q => int64_ok (fst q) = true) reqs /\
  max_rowid (events (cp_db d)) <= sqlite_sequence (cp_db d) /\
  0 <= sqlite_sequence (cp_db d) /\
  sqlite_sequence (cp_db d) + Z.of_nat (length reqs) <= 2 ^ 63 - 1 /\
  exists devices' d' tr,
    EventSocketServer_loop repr devices
      (List.map (fun q => (w, inr (request "thermo" (fst q) (snd q)))) reqs) =
      Some (List.map reply_id
              (seqZ (sqlite_sequence (cp_db d) + 1) (Z.of_nat (length reqs))),
            None, devices', tr) /\
    devices' !! "thermo"%string = Some (CustomEventProto d') /\
    List.map (fun r => (row_ts r, row_value r)) (events (cp_db d')) =
      List.map (fun r => (row_ts r, row_value r)) (events (cp_db d)) ++ reqs.
Proof.
  intros repr w d devices reqs.
  assert (H1 : devices !! "thermo"%string = Some (CustomEventProto d)) by reflexivity.
  assert (H2 : env_io_ok w = true) by reflexivity.
  assert (H3 : Forall (fun q => int64_ok (fst q) = true) reqs)
    by (repeat constructor).
  assert (H4 : max_rowid (events (cp_db d)) <= sqlite_sequence (cp_db d)) by (simpl; lia).
  assert (H5 : 0 <= sqlite_sequence (cp_db d)) by (simpl; lia).
  assert (H6 : sqlite_sequence (cp_db d) + Z.of_nat (length reqs) <= 2 ^ 63 - 1)
    by (vm_compute; congruence).
  repeat (split; [assumption|]).
  exact (X18_dispatcher_numbers_in_arrival_order repr w reqs devices "thermo" d
           H1 H2 H3 H4 H5 H6).
Defined.

(** ** Datagrams and the client *)

(** X19.  A datagram written by [send_dgram] is a 4-byte big-endian length
    followed by the payload, and [read_dgram] reads it back to the same
    object when the frame arrives in one piece (the payload being non-empty,
    shorter than 2^32 bytes, and decodable). *)
Theorem X19_datagram_round_trip (dumps : json -> list byte)
    (loads : list byte -> exn + json) (data : json) (back : list chunk)
    (rest : list chunk) (out : list byte) (cl : bool) :
  dumps data <> [] ->
  Z.of_nat (length (dumps data)) < 2 ^ 32 ->
  loads (dumps data) = inr data ->
  let frame := be_digits 4 (Z.of_nat (length (dumps data))) ++ dumps data in
  send_dgram dumps data (Conn back [] false) = (inr tt, Conn back frame false) /\
  read_dgram loads (Conn (Data frame :: rest) out cl) = (inr data, Conn rest out cl).
Proof.
  intros Hne Hlen Hloads frame. split.
  - unfold send_dgram.
    rewrite mbind_unfold. unfold lift at 1. rewrite to_bytes_ok by (simpl; lia).
    rewrite mbind_unfold. unfold send. reflexivity.
  - unfold read_dgram, frame.
    rewrite mbind_unfold, recv_front by (done || apply length_be_digits).
    rewrite from_bytes_be_digits by (simpl; lia). rewrite Nat2Z.id.
    rewrite mbind_unfold, recv_whole by done.
    unfold lift. by rewrite Hloads.
Qed.

Lemma X19_datagram_round_trip_witness :
  let payload := encode_utf8 "{id: 7}" in
  let dumps := fun _ : json => payload in
  let loads := fun bs : list byte =>
                 if bool_decide (bs = payload) then inr (reply_id 7)
                 else inl (Exn ValueError "Expecting value") in
  dumps (reply_id 7) <> [] /\
  Z.of_nat (length (dumps (reply_id 7))) < 2 ^ 32 /\
  loads (dumps (reply_id 7)) = inr (reply_id 7) /\
  let frame := be_digits 4 (Z.of_nat (length (dumps (reply_id 7)))) ++ dumps (reply_id 7) in
  send_dgram dumps (reply_id 7) (Conn [] [] false) = (inr tt, Conn [] frame false) /\
  read_dgram loads (Conn (Data frame :: []) [] false) =
    (inr (reply_id 7), Conn [] [] false).
Proof.
  intros payload dumps loads.
  assert (H1 : dumps (reply_id 7) <> []) by discriminate.
  assert (H2 : Z.of_nat (length (dumps (reply_id 7))) < 2 ^ 32) by (vm_compute; done).
  assert (H3 : loads (dumps (reply_id 7)) = inr (reply_id 7)) by reflexivity.
  repeat (split; [assumption|]).
  exact (X19_datagram_round_trip dumps loads (reply_id 7) [] [] [] false H1 H2 H3).
Defined.

(** X20.  [read_dgram] reads the payload with a single [recv]: when only a
    first part of the announced length has arrived, that part alone is
    handed to the decoder and the rest stays unread on the socket. *)
Theorem X20_datagram_short_read (loads : list byte -> exn + json)
    (announced : Z) (part : list byte) (rest : list chunk) (out : list byte)
    (cl : bool) :
  part <> [] ->
  Z.of_nat (length part) <= announced < 2 ^ 32 ->
  read_dgram loads (Conn (Data (be_digits 4 announced ++ part) :: rest) out cl) =
    (loads part, Conn rest out cl).
Proof.
  intros Hne Hlen. unfold read_dgram.
  rewrite mbind_unfold, recv_front by (done || apply length_be_digits).
  rewrite from_bytes_be_digits by (simpl; lia).
  rewrite mbind_unfold, recv_whole by lia.
  unfold lift. by destruct (loads part).
Qed.

Lemma X20_datagram_short_read_witness :
  let loads := fun _ : list byte => inl (Exn ValueError "Unterminated string") in
  encode_utf8 "{id" <> [] /\
  Z.of_nat (length (encode_utf8 "{id")) <= 7 < 2 ^ 32 /\
  read_dgram loads
    (Conn (Data (be_digits 4 7 ++ encode_utf8 "{id") :: [Data (encode_utf8 ": 7}")])
          [] false) =
    (loads (encode_utf8 "{id"), Conn [Data (encode_utf8 ": 7}")] [] false).
Proof.
  intros loads.
  assert (H1 : encode_utf8 "{id" <> []) by discriminate.
  assert (H2 : Z.of_nat (length (encode_utf8 "{id")) <= 7 < 2 ^ 32) by (simpl; lia).
  repeat (split; [assumption|]).
  exact (X20_datagram_short_read loads 7 _ [Data (encode_utf8 ": 7}")] [] false H1 H2).
Defined.

(** X21.  Against this dispatcher the client never raises: it returns the id
    the dispatcher assigned when the reply is [{id: ...}], and nothing when
    the reply is [{error: ...}]. *)
Theorem X21_client_returns_assigned_id (repr : json -> string) (w : env)
    (devices devices' : gmap string Device) (dgram : exn + json) (reply : json)
    (tr : list io_event) :
  EventSocketServer_serve repr w devices dgram = Some (inr reply, devices', tr) ->
  (exists id, reply = reply_id id /\
              EventSocketClient_event (Reply reply) = inr (Some (JInt id))) \/
  (exists message, reply = reply_error message /\
                   EventSocketClient_event (Reply reply) = inr None).
Proof.
  intros Hserve.
  assert (Hshape : (exists id, reply = reply_id id) \/
                   (exists message, reply = reply_error message)).
  { revert Hserve. unfold EventSocketServer_serve.
    destruct (serve_body repr w devices dgram) as [[[r0 devs] tr0]|] eqn:Hbody; [|done].
    destruct r0 as [err|reply0].
    - destruct err as [[] msg]; simpl; intros [= <- _ _]; right; by eexists.
    - intros [= <- _ _]. revert Hbody. unfold serve_body.
      destruct dgram as [e|data]; [done|].
      destruct (parse_request repr data) as [e|[[[dev_name ts] value] kwargs]]; [done|].
      destruct (devices !! dev_name) as [device|]; [|done].
      destruct (Device_event w device ts value (default 0 kwargs))
        as [[[[e|id] device'] tr1]|]; [| |done].
      + destruct (is_class ValueError e); [done|].
        destruct (is_class EventError e); [|done].
        intros [= <- _ _]. right. by eexists.
      + intros [= <- _ _]. left. by eexists. }
  destruct Hshape as [[id ->]|[message ->]]; [left|right]; by eexists.
Qed.

Lemma X21_client_returns_assigned_id_witness :
  let repr := fun _ : json => "{...}"%string in
  let w := Env 1 (fun _ _ => HttpResponse 200 "b'ok'") true in
  let devices : gmap string Device :=
    {[ "thermo"%string :=
         CustomEventProto (CustomEventProtoDevice_init "thermo" Temperature None) ]} in
  exists reply devices' tr,
    EventSocketServer_serve repr w devices (inr (request "thermo" 100 "215")) =
      Some (inr reply, devices', tr) /\
    ((exists id, reply = reply_id id /\
                 EventSocketClient_event (Reply reply) = inr (Some (JInt id))) \/
     (exists message, reply = reply_error message /\
                      EventSocketClient_event (Reply reply) = inr None)).
Proof.
  intros repr w devices. do 3 eexists. split; [reflexivity|].
  exact (X21_client_returns_assigned_id repr w devices _
           (inr (request "thermo" 100 "215")) _ _ eq_refl).
Defined.

(** ** Decimal text and the sensors *)

Lemma pretty_N_char_digit (y : N) :
  (y < 10)%N ->
  is_digit_char (pretty_N_char y) /\ digit_of (pretty_N_char y) = Some (Z.of_N y).
Proof.
  intros Hy.
  assert (y = 0 \/ y = 1 \/ y = 2 \/ y = 3 \/ y = 4 \/ y = 5 \/ y = 6 \/ y = 7
          \/ y = 8 \/ y = 9)%N as Hc by lia.
  repeat (destruct Hc as [->|Hc]); try subst y;
    (split; [split; [by eexists|by repeat split]|reflexivity]).
Qed.

Lemma int_digits_step (acc : Z) (b : bool) (y : N) (l : list ascii) :
  (y < 10)%N ->
  int_digits acc b (pretty_N_char y :: l) = int_digits (acc * 10 + Z.of_N y) true l.
Proof.
  intros Hy. destruct (pretty_N_char_digit y Hy) as [(_ & Hu & _) Hd].
  simpl. rewrite bool_decide_eq_false_2 by done. by rewrite Hd.
Qed.

(** The characters [pretty_N_go] puts in front of its accumulator are
    decimal digits, and reading them continues the number read so far. *)
Lemma pretty_N_go_digits (x : N) (s : string) :
  exists l,
    String.list_ascii_of_string (pretty_N_go x s) =
      l ++ String.list_ascii_of_string s /\
    Forall is_digit_char l /\
    ((0 < x)%N -> l <> []) /\
    (x = 0%N -> l = []) /\
    forall acc b rest,
      l <> [] ->
      int_digits acc b (l ++ rest) =
        int_digits (acc * 10 ^ Z.of_nat (length l) + Z.of_N x) true rest.
Proof.
  revert s. induction (N.lt_wf_0 x) as [x _ IH]; intros s.
  destruct (decide (x = 0%N)) as [->|Hx].
  - exists []. rewrite pretty_N_go_0. repeat split; try done; lia.
  - rewrite pretty_N_go_step by lia.
    destruct (IH (x `div` 10)%N ltac:(apply N.div_lt; lia)
                 (String (pretty_N_char (x `mod` 10)) s))
      as (l' & Hl' & Hdig & Hpos & Hzero & Hval).
    assert (Hm : (x `mod` 10 < 10)%N) by (apply N.mod_lt; lia).
    exists (l' ++ [pretty_N_char (x `mod` 10)]).
    split; [by rewrite Hl', <- app_assoc|].
    split; [apply Forall_app; split; [done|];
            constructor; [apply pretty_N_char_digit, Hm|constructor]|].
    split; [by destruct l'|]. split; [lia|].
    intros acc b rest _. rewrite <- app_assoc. cbn [app].
    pose proof (N.div_mod x 10 ltac:(lia)) as Hdm.
    destruct l' as [|a l'].
    + cbn [app length]. rewrite int_digits_step by done.
      assert (x `div` 10 = 0)%N as Hq.
      { destruct (decide (x `div` 10 = 0)%N) as [|Hq]; [done|].
        by destruct (Hpos ltac:(lia)). }
      f_equal. lia.
    + rewrite Hval by done. rewrite int_digits_step by done.
      f_equal. rewrite length_app, Nat2Z.inj_add, Z.pow_add_r by lia.
      change (10 ^ Z.of_nat (length [pretty_N_char (x `mod` 10)])) with 10. lia.
Qed.

Lemma strip_digits (l : list ascii) (a : ascii) :
  is_space a = false -> Forall is_digit_char l -> strip (a :: l) = a :: l.
Proof.
  intros Ha Hl. unfold strip. simpl. rewrite Ha.
  assert (Hlast : forall k, k <> [] ->
            (forall c, In c k -> is_space c = false) -> lstrip (rev k) = rev k).
  { intros k Hk Hall. destruct (rev k) as [|c k'] eqn:Hrev.
    - done.
    - simpl. rewrite Hall; [done|]. apply in_rev. rewrite Hrev. by left. }
  rewrite (Hlast (a :: l)); [by rewrite rev_involutive|done|].
  intros c [<-|Hc]; [done|].
  rewrite Forall_forall in Hl. apply list_elem_of_In in Hc. by apply Hl in Hc as (_ & _ & _ & _ & ?).
Qed.

Lemma py_int_pretty_pos (p : positive) :
  exists a l,
    String.list_ascii_of_string (pretty (Npos p)) = a :: l /\
    Forall is_digit_char (a :: l) /\
    int_digits 0 false (a :: l) = Some (Zpos p).
Proof.
  unfold pretty, pretty_N. rewrite decide_False by done.
  destruct (pretty_N_go_digits (Npos p) EmptyString)
    as (l & Hl & Hdig & Hpos & _ & Hval).
  simpl in Hl. rewrite app_nil_r in Hl.
  destruct l as [|a l]; [by destruct Hpos|].
  exists a, l. split; [done|]. split; [done|].
  specialize (Hval 0 false [] ltac:(done)). rewrite app_nil_r in Hval.
  rewrite Hval. simpl. done.
Qed.

(** Reading back the decimal text of an integer gives the integer. *)
Lemma py_int_pretty (z : Z) : py_int (pretty z) = inr z.
Proof.
  destruct z as [|p|p].
  - reflexivity.
  - destruct (py_int_pretty_pos p) as (a & l & Hl & Hdig & Hval).
    unfold py_int. change (pretty (Zpos p)) with (pretty (Npos p)).
    rewrite Hl. inversion Hdig as [|? ? (_ & _ & Hm & Hp & Hs) Hdig']; subst.
    rewrite strip_digits by done.
    assert (Hgo : match a :: l with
                  | "-"%char :: k => Z.opp <$> int_digits 0 false k
                  | "+"%char :: k => int_digits 0 false k
                  | k => int_digits 0 false k
                  end = int_digits 0 false (a :: l)).
    { clear -Hm Hp. destruct a as [[] [] [] [] [] [] [] []]; try reflexivity;
        by (destruct Hm || destruct Hp). }
    rewrite Hgo, Hval. done.
  - destruct (py_int_pretty_pos p) as (a & l & Hl & Hdig & Hval).
    unfold py_int.
    change (pretty (Zneg p)) with ("-" +:+ pretty (Npos p)).
    change (String.list_ascii_of_string ("-" +:+ pretty (Npos p)))
      with ("-"%char :: String.list_ascii_of_string (pretty (Npos p))).
    rewrite Hl, strip_digits by done. rewrite Hval. done.
Qed.

(** X22.  Given the decimal text of an integer [n], [Temperature._value]
    returns [n / 10] exactly when [-500 <= n <= 500] (both ends included)
    and raises "must be between -500 and 500" otherwise. *)
Theorem X22_temperature_accepts_exactly_the_range (n : Z) :
  Temperature_value (pretty n) =
    if bool_decide (-500 <= n <= 500)
    then inr (VFloat (TrueDiv n 10))
    else inl (Exn ValueError "must be between -500 and 500").
Proof.
  unfold Temperature_value. rewrite py_int_pretty.
  case_bool_decide as Hn.
  - destruct (Z.ltb_spec n (-500)); [lia|].
    destruct (Z.gtb_spec n 500); [lia|done].
  - destruct (Z.ltb_spec n (-500)); [done|].
    destruct (Z.gtb_spec n 500); [done|lia].
Qed.

(** ** Start-up *)

Lemma create_devices_spec (h : host_state) (config : list (string * DeviceConfig))
    (acc devices : gmap string Device) :
  NoDup (List.map fst config) ->
  create_devices h config acc = inr devices ->
  (forall name, ~ In name (List.map fst config) -> devices !! name = acc !! name) /\
  (forall name dc, In (name, dc) config ->
     exists cls device,
       device_map (dc_type dc) = Some cls /\
       construct h cls name = inr device /\
       devices !! name = Some device).
Proof.
  revert acc. induction config as [|[name dc] config IH]; intros acc Hnd; simpl.
  - intros [= <-]. split; [done|]. by intros ? ? [].
  - apply NoDup_cons in Hnd as [Hfresh Hnd].
    destruct (device_map (dc_type dc)) as [cls|] eqn:Hcls; [|done].
    destruct (construct h cls name) as [e|device] eqn:Hcon;
      [by destruct (is_Exception e)|].
    intros Hrun. destruct (IH _ Hnd Hrun) as [Hout Hin]. split.
    + intros name' Hname'. rewrite Hout by tauto.
      apply lookup_insert_ne. intros ->. tauto.
    + intros name' dc' [[= <- <-]|Htail].
      * exists cls, device. repeat split; [done..|].
        rewrite Hout; [apply lookup_insert_eq|]. by rewrite <- list_elem_of_In.
      * by apply Hin.
Qed.

(** X23.  When the devices are created without error from a configuration
    (names distinct, as in a dict), the device table holds exactly the
    configured names, each bound to a device of the class its [type] maps to,
    constructed under its own name. *)
Theorem X23_startup_builds_configured_devices (h : host_state)
    (config : list (string * DeviceConfig)) (devices : gmap string Device) :
  NoDup (List.map fst config) ->
  create_devices h config ∅ = inr devices ->
  (forall name, is_Some (devices !! name) <-> In name (List.map fst config)) /\
  (forall name dc, In (name, dc) config ->
     exists cls device,
       device_map (dc_type dc) = Some cls /\
       construct h cls name = inr device /\
       devices !! name = Some device).
Proof.
  intros Hnd Hrun. destruct (create_devices_spec h config ∅ devices Hnd Hrun)
    as [Hout Hin].
  split; [|exact Hin]. intros name. split.
  - intros Hsome. destruct (in_dec String.string_dec name (List.map fst config)) as [|Hno];
      [done|].
    rewrite (Hout name Hno), lookup_empty in Hsome. by destruct Hsome.
  - intros Hname. apply in_map_iff in Hname as [[name' dc] [<- Hentry]].
    destruct (Hin _ _ Hentry) as (cls & device & _ & _ & Hdev). simpl. by eexists.
Qed.

Lemma X23_startup_builds_configured_devices_witness :
  let h := HostState (fun _ => None) (fun _ => None) (fun _ => None) in
  let config := [("thermo"%string, Build_DeviceConfig "temperature" "127.0.0.1" "9001");
                 ("door"%string, Build_DeviceConfig "end" "127.0.0.1" "9002")] in
  NoDup (List.map fst config) /\
  exists devices,
    create_devices h config ∅ = inr devices /\
    (forall name, is_Some (devices !! name) <-> In name (List.map fst config)) /\
    (forall name dc, In (name, dc) config ->
       exists cls device,
         device_map (dc_type dc) = Some cls /\
         construct h cls name = inr device /\
         devices !! name = Some device).
Proof.
  intros h config.
  assert (Hnd : NoDup (List.map fst config)).
  { by apply (bool_decide_unpack _). }
  split; [exact Hnd|]. eexists. split; [reflexivity|].
  exact (X23_startup_builds_configured_devices h config _ Hnd eq_refl).
Defined.

Lemma create_devices_app (h : host_state) (pre post : list (string * DeviceConfig))
    (acc acc' : gmap string Device) :
  create_devices h pre acc = inr acc' ->
  create_devices h (pre ++ post) acc = create_devices h post acc'.
Proof.
  revert acc. induction pre as [|[name dc] pre IH]; intros acc; simpl.
  - by intros [= <-].
  - destruct (device_map (dc_type dc)); [|done].
    destruct (construct h _ name) as [e|device]; [by destruct (is_Exception e)|].
    apply IH.
Qed.

(** X24.  Start-up stops at the first entry that cannot be served: a type
    that is not one of mass, end, temperature, keyboard raises ValueError
    "Unknown device type ...", and a constructor that fails with an exception
    ends the process with status 255; the entries after it are not looked
    at. *)
Theorem X24_startup_stops_at_first_bad_entry (h : host_state)
    (pre post : list (string * DeviceConfig)) (name : string) (dc : DeviceConfig)
    (acc : gmap string Device) :
  create_devices h pre ∅ = inr acc ->
  match device_map (dc_type dc) with
  | None =>
      create_devices h (pre ++ (name, dc) :: post) ∅ =
        inl (Exn ValueError ("Unknown device type " +:+ dc_type dc))
  | Some cls =>
      forall e, construct h cls name = inl e -> is_Exception e = true ->
        create_devices h (pre ++ (name, dc) :: post) ∅ = inl (sys_exit 255)
  end.
Proof.
  intros Hpre. rewrite (create_devices_app h pre _ ∅ acc Hpre). simpl.
  destruct (device_map (dc_type dc)) as [cls|]; [|done].
  intros e -> ->. done.
Qed.

Lemma X24_startup_stops_at_first_bad_entry_witness :
  let h := HostState (fun _ => None) (fun _ => None) (fun _ => None) in
  let pre := [("thermo"%string, Build_DeviceConfig "temperature" "127.0.0.1" "9001")] in
  let dc := Build_DeviceConfig "humidity" "127.0.0.1" "9003" in
  exists acc,
    create_devices h pre ∅ = inr acc /\
    match device_map (dc_type dc) with
    | None =>
        create_devices h (pre ++ ("hygro"%string, dc) :: []) ∅ =
          inl (Exn ValueError ("Unknown device type " +:+ dc_type dc))
    | Some cls =>
        forall e, construct h cls "hygro" = inl e -> is_Exception e = true ->
          create_devices h (pre ++ ("hygro"%string, dc) :: []) ∅ = inl (sys_exit 255)
    end.
Proof.
  intros h pre dc. eexists. split; [reflexivity|].
  exact (X24_startup_stops_at_first_bad_entry h pre [] "hygro" dc _ eq_refl).
Defined.

(** X25.  When the dispatcher cannot remove a stale socket file or cannot
    bind its socket, its [run] ends at once, and through [runner] the whole
    process exits with status 255: no device is left serving. *)
Theorem X25_dispatcher_start_failure_ends_process (s : socket_start)
    (f_run : run_result) (p : process) :
  EventSocketServer_run_start s = Some f_run ->
  serving (task_exits "event listener" f_run p) = [] /\
  exit_status (task_exits "event listener" f_run p) = Some 255.
Proof.
  destruct s as [|err|err]; simpl; [done| |]; by intros [= <-].
Qed.

Lemma X25_dispatcher_start_failure_ends_process_witness :
  EventSocketServer_run_start (BindFails "Address already in use") = Some Returned /\
  serving (task_exits "event listener" Returned (spawn_all ["thermo"; "door"])) = [] /\
  exit_status (task_exits "event listener" Returned (spawn_all ["thermo"; "door"]))
    = Some 255.
Proof.
  assert (H : EventSocketServer_run_start (BindFails "Address already in use")
              = Some Returned) by reflexivity.
  split; [exact H|].
  exact (X25_dispatcher_start_failure_ends_process _ Returned
           (spawn_all ["thermo"; "door"]) H).
Defined.

(** ** The pull device's store *)

(** X26.  On a pull device created on a fresh database, the ids returned by
    the successful ingestions of any run are 1, 2, 3, ... in order: a call
    the storage refuses, or one with a timestamp outside the 64-bit range,
    uses up no id. *)
Theorem X26_fresh_pull_device_ids_count_from_one (name : string)
    (kind : proto_sensor) (calls : list (bool * Z * string)) :
  let ids := returned_ids
               (fst (ingest_all calls (CustomEventProtoDevice_init name kind None))) in
  ids = seqZ 1 (Z.of_nat (length ids)).
Proof.
  apply (proto_ids_consecutive calls (CustomEventProtoDevice_init name kind None));
    simpl; lia.
Qed.

(** X27.  When a stored value is rejected by [_value], the reply writer has
    by then sent the marker, a count that includes the rejected row and
    those after it, and one record for each row before it, in order, each
    being exactly what [send_event] writes for that row and starting with
    the row's id and timestamp; it sends nothing after them, so no
    terminator, and lets the exception out with the connection still
    open. *)
Theorem X27_reply_stops_at_rejected_value (pack : pyfloat -> exn + list byte)
    (_value : string -> exn + TValue) (good rest : list events_row)
    (bad : events_row) (e : exn) (c : conn) :
  Z.of_nat (length (good ++ bad :: rest)) < 2 ^ 32 ->
  Forall (row_encodable pack _value) good ->
  _value (row_value bad) = inl e ->
  exists records,
    Forall2 (fun r record =>
               take 16 record = be_digits 8 (row_id r) ++ be_digits 8 (row_ts r) /\
               forall c0, send_event pack _value r c0 =
                            (inr tt, Conn (inbox c0) (sent c0 ++ record) (closed c0)))
            good records /\
    send_reply pack _value (good ++ bad :: rest) c =
      (inl e,
       Conn (inbox c)
            (sent c ++ MAGIC
               ++ be_digits 4 (Z.of_nat (length (good ++ bad :: rest)))
               ++ concat records)
            (closed c)).
Proof.
  intros Hlen Hgood Hbad.
  destruct (for_each_records pack _value good Hgood) as (records & Hall & Hrun).
  exists records. split; [exact Hall|].
  erewrite send_reply_aborts; [reflexivity|exact Hlen| |exact Hbad].
  rewrite Hrun. simpl. by rewrite <- !app_assoc.
Qed.

Lemma X27_reply_stops_at_rejected_value_witness :
  let pack := fun _ : pyfloat => inr [x00; x00; xac; x41] : exn + list byte in
  let good := [EventsRow 1 100 "215"] in
  let bad := EventsRow 2 110 "9999" in
  let c := Conn [] [] false in
  Z.of_nat (length (good ++ bad :: [])) < 2 ^ 32 /\
  Forall (row_encodable pack Temperature_value) good /\
  Temperature_value (row_value bad) =
    inl (Exn ValueError "must be between -500 and 500") /\
  exists records,
    Forall2 (fun r record =>
               take 16 record = be_digits 8 (row_id r) ++ be_digits 8 (row_ts r) /\
               forall c0, send_event pack Temperature_value r c0 =
                            (inr tt, Conn (inbox c0) (sent c0 ++ record) (closed c0)))
            good records /\
    send_reply pack Temperature_value (good ++ bad :: []) c =
      (inl (Exn ValueError "must be between -500 and 500"),
       Conn (inbox c)
            (sent c ++ MAGIC
               ++ be_digits 4 (Z.of_nat (length (good ++ bad :: [])))
               ++ concat records)
            (closed c)).
Proof.
  intros pack good bad c.
  assert (H1 : Z.of_nat (length (good ++ bad :: [])) < 2 ^ 32) by (simpl; lia).
  assert (H2 : Forall (row_encodable pack Temperature_value) good).
  { repeat constructor; simpl; try lia.
    eexists. split; [reflexivity|]. by eexists. }
  assert (H3 : Temperature_value (row_value bad) =
               inl (Exn ValueError "must be between -500 and 500")) by reflexivity.
  repeat (split; [assumption|]).
  exact (X27_reply_stops_at_rejected_value pack Temperature_value good [] bad _ c
           H1 H2 H3).
Defined.
